(** * A shallow embedding of [hype_funding_tracker.py]

    The funding-rate pipeline of the tracker: the asset catalog
    ([get_all_perp_assets]), the paginated history download with its
    rate-limit retries ([fetch_funding_history]), the statistics
    ([calculate_stats]), the per-coin wrapper ([fetch_coin_data]), the
    sequential loop of [main], the chart data of [generate_html] and the
    top-10 summary printed at the end of [main].

    Modelling choices.
    - Python floats are kept abstract behind the class [PyNum]: the
      operations the code performs on them (the [0] that starts [sum], [+],
      [/], [<] and the conversion of [len]).  Two instances are given:
      IEEE binary64 ([PrimFloat.float], what CPython uses) and exact
      rationals [Q].
    - Timestamps are Python ints ([Z]); the clock reading
      [datetime.now().timestamp() * 1000] is a rational [Q] (a double is
      a rational), so [d['time'] >= cutoff] is compared exactly, as
      CPython compares an int with a float.
    - A Python exception is the constructor [Raises] of [outcome]; a field
      that is missing or that [float()] cannot convert is [None] in the
      record, and reading it raises.
    - The HTTP endpoint is an oracle [server : nat -> payload -> response]
      answering the n-th request of the run; the wall clock is an oracle
      [clock : nat -> Q] giving the n-th reading.  Requests and sleeps are
      recorded in a trace. *)

From Stdlib Require Import ZArith QArith Qabs Lqa Floats Permutation Sorted.
From stdpp Require Import base gmap strings list.

(* ------------------------------------------------------------------ *)
(** ** Python numbers *)

Class PyNum (R : Type) := {
  py_zero : R;                 (* the int [0] that starts [sum()] *)
  py_add : R -> R -> R;
  py_div : R -> R -> R;
  py_lt : R -> R -> bool;
  py_of_nat : nat -> R         (* [len(...)] used as a float operand *)
}.

Fixpoint float_of_nat (n : nat) : float :=
  match n with
  | O => PrimFloat.zero
  | S n' => PrimFloat.add (float_of_nat n') PrimFloat.one
  end.

#[global] Instance float_PyNum : PyNum float := {
  py_zero := PrimFloat.zero;
  py_add := PrimFloat.add;
  py_div := PrimFloat.div;
  py_lt := PrimFloat.ltb;
  py_of_nat := float_of_nat
}.

#[global] Instance Q_PyNum : PyNum Q := {
  py_zero := 0%Q;
  py_add := Qplus;
  py_div := Qdiv;
  py_lt := fun x y => negb (Qle_bool y x);
  py_of_nat := fun n => inject_Z (Z.of_nat n)
}.

(* ------------------------------------------------------------------ *)
(** ** Exceptions *)

Inductive outcome (A : Type) : Type :=
| Returns (a : A)
| Raises.
Arguments Returns {A} _.
Arguments Raises {A}.

#[global] Instance outcome_ret : MRet outcome := @Returns.
#[global] Instance outcome_bind : MBind outcome :=
  fun A B f m => match m with Returns a => f a | Raises => Raises end.

(* ------------------------------------------------------------------ *)
(** ** Funding observations and [calculate_stats] *)

(** One element of the [fundingHistory] answer: [d['time']] and
    [float(d['fundingRate'])]; [None] when the access or the conversion
    raises. *)
Record observation (R : Type) := mkObs {
  time : option Z;
  fundingRate : option R
}.
Arguments mkObs {R} _ _.
Arguments time {R} _.
Arguments fundingRate {R} _.

Record stats (R : Type) := mkStats {
  rate8h : R;
  sum1d : R;
  sum3d : R;
  sum7d : R;
  sum30d : R;
  avg : R;
  max : R;
  min : R;
  count : nat
}.
Arguments mkStats {R} _ _ _ _ _ _ _ _ _.
Arguments rate8h {R} _.
Arguments sum1d {R} _.
Arguments sum3d {R} _.
Arguments sum7d {R} _.
Arguments sum30d {R} _.
Arguments avg {R} _.
Arguments max {R} _.
Arguments min {R} _.
Arguments count {R} _.

Section Stats.
Context {R : Type} `{PyNum R}.

Definition get_time (d : observation R) : outcome Z :=
  match time d with Some t => Returns t | None => Raises end.

Definition get_rate (d : observation R) : outcome R :=
  match fundingRate d with Some r => Returns r | None => Raises end.

(** [sorted(data, key=lambda x: x['time'], reverse=True)]: the keys are
    computed first (a missing one raises), then a stable sort in
    descending key order (equal keys keep their original order). *)
Fixpoint insert_desc {A} (x : Z * A) (l : list (Z * A)) : list (Z * A) :=
  match l with
  | [] => [x]
  | y :: l' => if (fst y <=? fst x)%Z then x :: l else y :: insert_desc x l'
  end.

Fixpoint sort_desc {A} (l : list (Z * A)) : list (Z * A) :=
  match l with
  | [] => []
  | x :: l' => insert_desc x (sort_desc l')
  end.

Definition sorted_by_time_desc (data : list (observation R))
    : outcome (list (Z * observation R)) :=
  keyed ← mapM (fun d => t ← get_time d; mret (t, d)) data;
  mret (sort_desc keyed).

(** [sum()] of an iterable: [0 + x1 + x2 + ...] from the left. *)
Definition py_sum (xs : list R) : R := fold_left py_add xs py_zero.

(** [max(rates) if rates else 0] and [min(rates) if rates else 0]:
    CPython keeps the current item unless a later one compares [>]
    (resp. [<]) to it. *)
Definition py_max (xs : list R) : R :=
  match xs with
  | [] => py_zero
  | x :: rest => fold_left (fun m y => if py_lt m y then y else m) rest x
  end.

Definition py_min (xs : list R) : R :=
  match xs with
  | [] => py_zero
  | x :: rest => fold_left (fun m y => if py_lt y m then y else m) rest x
  end.

(** The generator of [sum_hours]: [float(d['fundingRate'])] for the
    sorted items with [d['time'] >= cutoff], added from the left. *)
Fixpoint sum_window (cutoff : Q) (acc : R) (l : list (Z * observation R))
    : outcome R :=
  match l with
  | [] => Returns acc
  | (t, d) :: l' =>
      if Qle_bool cutoff (inject_Z t)
      then r ← get_rate d; sum_window cutoff (py_add acc r) l'
      else sum_window cutoff acc l'
  end.

(** [cutoff = now - hours * 60 * 60 * 1000] *)
Definition cutoff_of (now : Q) (hours : Z) : Q :=
  (now - inject_Z (hours * 60 * 60 * 1000))%Q.

Definition sum_hours (now : Q) (sorted_data : list (Z * observation R))
    (hours : Z) : outcome R :=
  sum_window (cutoff_of now hours) py_zero sorted_data.

(** [calculate_stats(data)], with [now] the clock reading it takes.
    [Returns None] is Python's [None]. *)
Definition calculate_stats (data : list (observation R)) (now : Q)
    : outcome (option (stats R)) :=
  match data with
  | [] => Returns None
  | _ =>
    sorted_data ← sorted_by_time_desc data;
    rates ← mapM get_rate data;
    r8 ← (match sorted_data with
          | (_, d) :: _ => get_rate d
          | [] => Returns py_zero
          end);
    s1 ← sum_hours now sorted_data 24;
    s3 ← sum_hours now sorted_data 72;
    s7 ← sum_hours now sorted_data 168;
    s30 ← sum_hours now sorted_data 720;
    let a := match rates with
             | [] => py_zero
             | _ => py_div (py_sum rates) (py_of_nat (length rates))
             end in
    Returns (Some (mkStats r8 s1 s3 s7 s30 a (py_max rates) (py_min rates)
                           (length data)))
  end.

End Stats.

(* ------------------------------------------------------------------ *)
(** ** The HTTP endpoint, the clock and the trace *)

(** The JSON body of a [fundingHistory] request. *)
Record payload := mkPayload {
  p_coin : string;
  p_startTime : Z;
  p_endTime : option Z
}.

(** What [response.json()] gives: it raises, or it is not a (non-empty)
    list, or it is a list of observations. *)
Inductive body (R : Type) :=
| BodyRaises
| BodyNotList
| BodyList (l : list (observation R)).
Arguments BodyRaises {R}.
Arguments BodyNotList {R}.
Arguments BodyList {R} _.

(** [requests.post] raises, or answers with a status and a body. *)
Inductive response (R : Type) :=
| TransportError
| HttpResponse (status : Z) (b : body R).
Arguments TransportError {R}.
Arguments HttpResponse {R} _ _.

Inductive event :=
| Post (iteration : nat) (p : payload)   (* [requests.post] in page [iteration] *)
| Sleep (secs : Q).                      (* [time.sleep(secs)] *)

Record world := mkWorld {
  trace : list event;
  ncalls : nat;     (* requests sent so far *)
  nclock : nat      (* clock readings taken so far *)
}.

Definition world0 : world := mkWorld [] 0 0.

Definition sleep (secs : Q) (w : world) : world :=
  mkWorld (trace w ++ [Sleep secs]) (ncalls w) (nclock w).

(** [max(d['time'] for d in data)] *)
Definition max_time {R} (data : list (observation R)) : outcome Z :=
  ts ← mapM get_time data;
  match ts with
  | [] => Raises
  | t :: ts' => Returns (fold_left Z.max ts' t)
  end.

(** How one pass through the body of the retry loop ends. *)
Inductive attempt_result (R : Type) :=
| AContinue429                                  (* 429: sleep, [continue] *)
| AReturn (acc : list (observation R))          (* [return all_data] *)
| ABreak (acc : list (observation R)) (next : Z)(* page done: [break] *)
| AExcept (acc : list (observation R)).         (* [except Exception] *)
Arguments AContinue429 {R}.
Arguments AReturn {R} _.
Arguments ABreak {R} _ _.
Arguments AExcept {R} _.

(** The [try] block of [fetch_funding_history], after the request has
    been answered by [resp].  Note that [all_data.extend(data)] happens
    before [max(...)], so an exception there keeps the extended list. *)
Definition attempt {R} (resp : response R) (all_data : list (observation R))
    : attempt_result R :=
  match resp with
  | TransportError => AExcept all_data
  | HttpResponse status b =>
    if (status =? 429)%Z then AContinue429
    else if negb (status =? 200)%Z then AReturn all_data
    else match b with
         | BodyRaises => AExcept all_data
         | BodyNotList => AReturn all_data
         | BodyList [] => AReturn all_data
         | BodyList data =>
           let acc := all_data ++ data in
           if (length data <? 500)%nat then AReturn acc
           else match max_time data with
                | Raises => AExcept acc
                | Returns last_time => ABreak acc (last_time + 1)
                end
         end
  end.

(** How the [for retry in range(max_retries)] loop is left. *)
Inductive retry_exit :=
| RetReturn              (* a [return all_data] inside the loop *)
| RetBreak (next : Z)    (* [break] with the new [current_start] *)
| RetExhausted.          (* the loop ran out: its [else] clause *)

Definition max_retries : nat := 3.
Definition max_iterations : nat := 20.

Section Fetch.
Context {R : Type}.
Variable server : nat -> payload -> response R.

Definition post (iteration : nat) (p : payload) (w : world)
    : response R * world :=
  (server (ncalls w) p,
   mkWorld (trace w ++ [Post iteration p]) (S (ncalls w)) (nclock w)).

(** [for retry in range(max_retries)], from index [retry] with [left]
    passes to go. *)
Fixpoint retry_loop (iteration : nat) (p : payload) (retry left : nat)
    (all_data : list (observation R)) (w : world)
    : retry_exit * list (observation R) * world :=
  match left with
  | O => (RetExhausted, all_data, w)
  | S left' =>
    let '(resp, w1) := post iteration p w in
    match attempt resp all_data with
    | AContinue429 =>
        (* [wait_time = (retry + 1) * 2] *)
        retry_loop iteration p (S retry) left' all_data
          (sleep (inject_Z (Z.of_nat ((retry + 1) * 2))) w1)
    | AReturn acc => (RetReturn, acc, w1)
    | ABreak acc next => (RetBreak next, acc, w1)
    | AExcept acc =>
        if (retry =? max_retries - 1)%nat then (RetReturn, acc, w1)
        else retry_loop iteration p (S retry) left' acc (sleep 1 w1)
    end
  end.

(** [payload["endTime"]] is set only when [end_time] is truthy. *)
Definition make_payload (coin : string) (current_start : Z)
    (end_time : option Z) : payload :=
  mkPayload coin current_start
    (match end_time with
     | Some e => if (e =? 0)%Z then None else Some e
     | None => None
     end).

(** [for iteration in range(max_iterations)], from [iteration] with
    [left] pages to go. *)
Fixpoint page_loop (coin : string) (end_time : option Z)
    (iteration left : nat) (current_start : Z)
    (all_data : list (observation R)) (w : world)
    : list (observation R) * world :=
  match left with
  | O => (all_data, w)
  | S left' =>
    let p := make_payload coin current_start end_time in
    match retry_loop iteration p 0 max_retries all_data w with
    | (RetReturn, acc, w') => (acc, w')
    | (RetExhausted, acc, w') => (acc, w')
    | (RetBreak next, acc, w') =>
        page_loop coin end_time (S iteration) left' next acc w'
    end
  end.

Definition fetch_funding_history (coin : string) (start_time : Z)
    (end_time : option Z) (w : world) : list (observation R) * world :=
  page_loop coin end_time 0 max_iterations start_time [] w.

End Fetch.

(* ------------------------------------------------------------------ *)
(** ** [calculate_stats] as called: it reads the wall clock *)

Section Pipeline.
Context {R : Type} `{PyNum R}.
Variable server : nat -> payload -> response R.
Variable clock : nat -> Q.

(** [datetime.now().timestamp() * 1000] *)
Definition read_clock (w : world) : Q * world :=
  (clock (nclock w), mkWorld (trace w) (ncalls w) (S (nclock w))).

(** [calculate_stats(data)]: [if not data: return None] comes before the
    clock is read. *)
Definition calculate_stats_io (data : list (observation R)) (w : world)
    : outcome (option (stats R)) * world :=
  match data with
  | [] => (Returns None, w)
  | _ => let '(now, w1) := read_clock w in (calculate_stats data now, w1)
  end.

(** The dict [{'history': ..., 'stats': ...}] built by [fetch_coin_data]. *)
Record coin_data := mkCoinData {
  history : list (observation R);
  cstats : option (stats R)
}.

(** [fetch_coin_data(coin, start_time, end_time)]: its bare [except]
    catches whatever [fetch_funding_history] or [calculate_stats]
    raises. *)
Definition fetch_coin_data (coin : string) (start_time end_time : Z)
    (w : world) : (string * coin_data) * world :=
  let '(hist, w1) := fetch_funding_history server coin start_time
                       (Some end_time) w in
  match hist with
  | [] => ((coin, mkCoinData [] None), w1)
  | _ =>
    let '(st, w2) := calculate_stats_io hist w1 in
    match st with
    | Returns s => ((coin, mkCoinData hist s), w2)
    | Raises => ((coin, mkCoinData [] None), w2)
    end
  end.

End Pipeline.
Arguments coin_data R : clear implicits.
Arguments mkCoinData {R} _ _.
Arguments history {R} _.
Arguments cstats {R} _.

(* ------------------------------------------------------------------ *)
(** ** The asset catalog: [get_all_perp_assets] *)

Record snapshot (R : Type) := mkSnap {
  volume24h : R;
  openInterest : R;
  markPx : R;
  funding : R
}.
Arguments mkSnap {R} _ _ _ _.

(** One element of [asset_ctxs]: [float(ctx.get(k, 0))] for its four
    keys, [None] when the conversion raises. *)
Record asset_ctx (R : Type) := mkCtx {
  c_dayNtlVlm : option R;
  c_openInterest : option R;
  c_markPx : option R;
  c_funding : option R
}.
Arguments mkCtx {R} _ _ _ _.
Arguments c_dayNtlVlm {R} _.
Arguments c_openInterest {R} _.
Arguments c_markPx {R} _.
Arguments c_funding {R} _.

(** [resp.json()] for [metaAndAssetCtxs]: it raises, or it is not a list
    of at least two elements, or it is [[meta, asset_ctxs]] where
    [meta['universe']] may be missing ([None]) and each universe entry's
    [asset['name']] may be missing ([None]). *)
Inductive meta_body (R : Type) :=
| MetaRaises
| MetaNotPair
| MetaPair (universe : option (list (option string)))
           (asset_ctxs : list (asset_ctx R)).
Arguments MetaRaises {R}.
Arguments MetaNotPair {R}.
Arguments MetaPair {R} _ _.

Inductive cat_response (R : Type) :=
| CatTransportError
| CatResponse (status : Z) (b : meta_body R).
Arguments CatTransportError {R}.
Arguments CatResponse {R} _ _.

Section Catalog.
Context {R : Type}.

(** The dict literal of one snapshot; its values are evaluated in order
    and the first failing [float()] raises. *)
Definition snapshot_of (ctx : asset_ctx R) : outcome (snapshot R) :=
  match c_dayNtlVlm ctx, c_openInterest ctx, c_markPx ctx, c_funding ctx with
  | Some v, Some oi, Some px, Some f => Returns (mkSnap v oi px f)
  | _, _, _, _ => Raises
  end.

(** [for asset, ctx in zip(meta['universe'], asset_ctxs)], appending to
    the namespace's list and dict.  An exception leaves the loop for the
    [except] handler, which keeps what was already appended. *)
Fixpoint universe_loop (pairs : list (option string * asset_ctx R))
    (assets : list string) (market : gmap string (snapshot R))
    : list string * gmap string (snapshot R) :=
  match pairs with
  | [] => (assets, market)
  | (asset, ctx) :: rest =>
    match asset with
    | None => (assets, market)
    | Some coin_name =>
      let assets' := assets ++ [coin_name] in
      match snapshot_of ctx with
      | Raises => (assets', market)
      | Returns snap => universe_loop rest assets' (<[coin_name := snap]> market)
      end
    end
  end.

(** One namespace's [try] block of [get_all_perp_assets]. *)
Definition fetch_namespace (resp : cat_response R)
    : list string * gmap string (snapshot R) :=
  match resp with
  | CatTransportError => ([], ∅)
  | CatResponse status b =>
    if (status =? 200)%Z then
      match b with
      | MetaPair (Some universe) asset_ctxs =>
          universe_loop (combine universe asset_ctxs) [] ∅
      | _ => ([], ∅)
      end
    else ([], ∅)
  end.

(** [get_all_perp_assets(include_main_perp)], given the answers to the
    main and the ["xyz"] requests; [{**main, **hip3}] lets the second
    win, as stdpp's left-biased union with it on the left does. *)
Definition get_all_perp_assets (include_main_perp : bool)
    (main_resp hip3_resp : cat_response R)
    : list string * list string * gmap string (snapshot R) :=
  let '(main_assets, main_market_data) :=
    if include_main_perp then fetch_namespace main_resp else ([], ∅) in
  let '(hip3_assets, hip3_market_data) := fetch_namespace hip3_resp in
  (main_assets, hip3_assets, hip3_market_data ∪ main_market_data).

End Catalog.

(* ------------------------------------------------------------------ *)
(** ** The loop of [main] *)

(** One value of [all_data]: the coin's dict after [data['market']] is
    set. *)
Record symbol_record (R : Type) := mkRecord {
  rec_history : list (observation R);
  rec_stats : option (stats R);
  rec_market : snapshot R
}.
Arguments mkRecord {R} _ _ _.
Arguments rec_history {R} _.
Arguments rec_stats {R} _.
Arguments rec_market {R} _.

(** [int(x)] truncates toward zero. *)
Definition py_int (q : Q) : Z := Z.quot (Qnum q) (Zpos (Qden q)).

Section Main.
Context {R : Type} `{PyNum R}.
Variable server : nat -> payload -> response R.
Variable clock : nat -> Q.

Definition zero_snapshot : snapshot R :=
  mkSnap py_zero py_zero py_zero py_zero.

(** [for i, coin in enumerate(all_assets, 1)].  The [try] body cannot
    raise ([fetch_coin_data] catches everything and the rest only reads
    keys it has just built), so its [except] branch is not modelled. *)
Fixpoint main_loop (market_data : gmap string (snapshot R))
    (start_time end_time : Z) (assets : list string)
    (all_data : gmap string (symbol_record R)) (w : world)
    : gmap string (symbol_record R) * world :=
  match assets with
  | [] => (all_data, w)
  | coin :: rest =>
    let '((coin_key, data), w1) :=
      fetch_coin_data server clock coin start_time end_time w in
    let market := match market_data !! coin with
                  | Some m => m
                  | None => zero_snapshot
                  end in
    main_loop market_data start_time end_time rest
      (<[coin_key := mkRecord (history data) (cstats data) market]> all_data)
      (sleep (3 # 10) w1)
  end.

(** [(datetime.fromtimestamp(t / 1000) - timedelta(days=30)).timestamp() * 1000]
    for the epoch time [t] (in ms) of a [datetime.now()] reading: thirty
    days of local wall-clock time back, converted with the machine's
    time zone.  It is [t - 2592000000] unless a daylight-saving change
    falls in between, so it is a parameter of the environment, like the
    clock. *)
Variable thirty_days_earlier : Q -> Q.

(** [main()] up to [generate_html]: the catalog, the time window
    ([end_time] from one clock reading, [start_time] thirty local days
    before a second one) and the loop. *)
Definition run (include_main_perp : bool) (main_resp hip3_resp : cat_response R)
    (w : world) : gmap string (symbol_record R) * world :=
  let '(main_assets, hip3_assets, market_data) :=
    get_all_perp_assets include_main_perp main_resp hip3_resp in
  let all_assets := main_assets ++ hip3_assets in
  let '(now1, w1) := read_clock clock w in
  let end_time := py_int now1 in
  let '(now2, w2) := read_clock clock w1 in
  let start_time := py_int (thirty_days_earlier now2) in
  main_loop market_data start_time end_time all_assets ∅ w2.

End Main.

(* ------------------------------------------------------------------ *)
(** ** The report: the chart data of [generate_html] and the summary
    printed at the end of [main] *)

(** The float operations only the report uses: [x * 100] and [abs]. *)
Class PyScale (R : Type) := {
  py_mul : R -> R -> R;
  py_hundred : R;             (* the int literal [100] as a float operand *)
  py_abs : R -> R
}.

#[global] Instance float_PyScale : PyScale float := {
  py_mul := PrimFloat.mul;
  py_hundred := 100%float;
  py_abs := PrimFloat.abs
}.

#[global] Instance Q_PyScale : PyScale Q := {
  py_mul := Qmult;
  py_hundred := 100%Q;
  py_abs := Qabs
}.

(** [sorted(..., key=lambda x: x['time'])]: a stable sort in ascending
    key order (equal keys keep their original order). *)
Fixpoint insert_asc {A} (x : Z * A) (l : list (Z * A)) : list (Z * A) :=
  match l with
  | [] => [x]
  | y :: l' => if (fst x <=? fst y)%Z then x :: l else y :: insert_asc x l'
  end.

Fixpoint sort_asc {A} (l : list (Z * A)) : list (Z * A) :=
  match l with
  | [] => []
  | x :: l' => insert_asc x (sort_asc l')
  end.

(** [xs[-500:]]: the last 500 elements (all of them when there are
    fewer). *)
Definition last500 {A} (xs : list A) : list A :=
  skipn (length xs - 500) xs.

Section Report.
Context {R : Type} `{PyNum R} `{PyScale R}.

(** One value of [chart_data]: [{'time': d['time'], 'rate':
    float(d['fundingRate']) * 100}] for the last 500 observations of
    the history sorted by time; a point is the pair [(time, rate)]. *)
Definition chart_points (hist : list (observation R)) : outcome (list (Z * R)) :=
  keyed ← mapM (fun d => t ← get_time d; mret (t, d)) hist;
  mapM (fun p => r ← get_rate (snd p); mret (fst p, py_mul r py_hundred))
       (last500 (sort_asc keyed)).

(** The [chart_data] loop of [generate_html] over the items of
    [all_data] in iteration order: coins with an empty history get no
    entry; an exception leaves [generate_html]. *)
Fixpoint chart_data (items : list (string * symbol_record R))
    (acc : gmap string (list (Z * R))) : outcome (gmap string (list (Z * R))) :=
  match items with
  | [] => Returns acc
  | (coin, data) :: rest =>
    match rec_history data with
    | [] => chart_data rest acc
    | hist => pts ← chart_points hist; chart_data rest (<[coin := pts]> acc)
    end
  end.

(** [abs(x[1]['stats']['sum7d'])], for an item whose stats are set. *)
Definition top_key (item : string * symbol_record R) : R :=
  match rec_stats (snd item) with
  | Some s => py_abs (sum7d s)
  | None => py_zero
  end.

(** [if v['stats']]: the stats dict is never empty, so it is truthy
    exactly when it is not [None]. *)
Definition has_stats (item : string * symbol_record R) : bool :=
  match rec_stats (snd item) with Some _ => true | None => false end.

(** [sorted(..., key=top_key, reverse=True)]: a stable sort in
    descending key order, comparing keys with [<] (it agrees with
    CPython's sort whenever [<] orders the keys totally). *)
Fixpoint insert_top (x : string * symbol_record R)
    (l : list (string * symbol_record R)) : list (string * symbol_record R) :=
  match l with
  | [] => [x]
  | y :: l' => if py_lt (top_key x) (top_key y) then y :: insert_top x l' else x :: l
  end.

Fixpoint sort_top (l : list (string * symbol_record R)) : list (string * symbol_record R) :=
  match l with
  | [] => []
  | x :: l' => insert_top x (sort_top l')
  end.

(** [sorted_coins] of [main], over the items of [all_data] in
    iteration order. *)
Definition top10 (items : list (string * symbol_record R))
    : list (string * symbol_record R) :=
  firstn 10 (sort_top (List.filter has_stats items)).

End Report.

(* ------------------------------------------------------------------ *)
(** ** Sample runs *)

Definition obs_of {R} (tr : Z * R) : observation R :=
  mkObs (Some (fst tr)) (Some (snd tr)).

(** The scenario of the spec: three observations at t = 0, 1, 2 ms with
    rates 0.0001, -0.0002, 0.0003, all within the last day. *)
Definition three_obs : list (observation Q) :=
  map obs_of [(0%Z, 1 # 10000); (1%Z, -2 # 10000); (2%Z, 3 # 10000)].

Example three_obs_stats :
  match calculate_stats three_obs 1000 with
  | Returns (Some s) =>
      Qeq_bool (rate8h s) (3 # 10000) && Qeq_bool (sum1d s) (2 # 10000)
      && Qeq_bool (avg s) (((1 # 10000) - (2 # 10000) + (3 # 10000)) / 3)
      && Qeq_bool (max s) (3 # 10000) && Qeq_bool (min s) (-2 # 10000)
      && Nat.eqb (count s) 3
  | _ => false
  end = true.
Proof. vm_compute. reflexivity. Qed.

Definition full_page (base : Z) : list (observation Q) :=
  map (fun k => obs_of (base + Z.of_nat k, 1 # 10000)%Z) (seq 0 500).

Example fetch_two_pages :
  let server := fun (i : nat) (_ : payload) =>
    match i with
    | O => HttpResponse 200 (BodyList (full_page 0))
    | 1%nat => HttpResponse 429 BodyNotList
    | _ => HttpResponse 200 (BodyList (firstn 3 (full_page 500)))
    end in
  let '(res, w) := fetch_funding_history server "BTC" 0%Z (Some 10000%Z) world0 in
  length res = 503%nat /\ ncalls w = 3%nat.
Proof. vm_compute. split; reflexivity. Qed.

(* ------------------------------------------------------------------ *)
(** ** Properties of [calculate_stats] *)

(** The rates of the observations with [time >= now - hours], in the
    order of the history. *)
Definition in_window {R} (now : Q) (hours : Z) (p : Z * R) : bool :=
  Qle_bool (cutoff_of now hours) (inject_Z (fst p)).

Definition window_rates {R} (now : Q) (hours : Z) (tr : list (Z * R)) : list R :=
  map snd (List.filter (in_window now hours) tr).

Definition keyed_obs {R} (p : Z * R) : Z * observation R := (fst p, obs_of p).

Section StatsProofs.
Context {R : Type} `{PyNum R}.

Lemma insert_desc_perm {A} (x : Z * A) l : Permutation (insert_desc x l) (x :: l).
Proof.
  induction l as [|y l IH]; simpl; [reflexivity|].
  destruct (fst y <=? fst x)%Z; [reflexivity|].
  rewrite IH. apply perm_swap.
Qed.

Lemma sort_desc_perm {A} (l : list (Z * A)) : Permutation (sort_desc l) l.
Proof.
  induction l as [|x l IH]; simpl; [reflexivity|].
  rewrite insert_desc_perm, IH. reflexivity.
Qed.

Lemma insert_desc_map {A B} (f : Z * A -> B) (x : Z * A) l :
  insert_desc (fst x, f x) (map (fun p => (fst p, f p)) l) =
  map (fun p => (fst p, f p)) (insert_desc x l).
Proof.
  induction l as [|y l IH]; simpl; [reflexivity|].
  destruct (fst y <=? fst x)%Z; simpl; [reflexivity|]. now rewrite IH.
Qed.

Lemma sort_desc_map {A B} (f : Z * A -> B) (l : list (Z * A)) :
  sort_desc (map (fun p => (fst p, f p)) l) = map (fun p => (fst p, f p)) (sort_desc l).
Proof.
  induction l as [|x l IH]; simpl; [reflexivity|].
  rewrite IH. apply (insert_desc_map f x).
Qed.

Lemma filter_perm {A} (f : A -> bool) (l l' : list A) :
  Permutation l l' -> Permutation (List.filter f l) (List.filter f l').
Proof.
  induction 1; simpl.
  - constructor.
  - destruct (f x); [constructor|]; assumption.
  - destruct (f x), (f y); try constructor; reflexivity.
  - etransitivity; eassumption.
Qed.

(** The head of the descending sort has a maximal key. *)
Lemma sort_desc_head {A} (l : list (Z * A)) :
  l <> [] ->
  exists h rest, sort_desc l = h :: rest /\ In h l /\
                 forall y, In y l -> (fst y <= fst h)%Z.
Proof.
  induction l as [|x l IH]; intros Hne; [congruence|].
  destruct l as [|x' l].
  - exists x, []. simpl. split; [reflexivity|]. split; [left; reflexivity|].
    intros y [<-|[]]. lia.
  - destruct IH as (h & rest & Hs & Hin & Hmax); [discriminate|].
    change (sort_desc (x :: x' :: l)) with (insert_desc x (sort_desc (x' :: l))).
    rewrite Hs. simpl. destruct (Z.leb_spec (fst h) (fst x)).
    + exists x, (h :: rest). split; [reflexivity|]. split; [left; reflexivity|].
      intros y [<-|Hy]; [lia|]. specialize (Hmax y Hy). lia.
    + exists h, (insert_desc x rest). split; [reflexivity|].
      split; [right; exact Hin|].
      intros y [<-|Hy]; [lia|]. exact (Hmax y Hy).
Qed.

Lemma mapM_keyed (tr : list (Z * R)) :
  mapM (fun d => t ← get_time d; mret (t, d)) (map obs_of tr) =
  Returns (map keyed_obs tr).
Proof.
  induction tr as [|p tr IH]; [reflexivity|].
  simpl. rewrite IH. reflexivity.
Qed.

Lemma mapM_rates (tr : list (Z * R)) :
  mapM get_rate (map obs_of tr) = Returns (map snd tr).
Proof.
  induction tr as [|p tr IH]; [reflexivity|].
  simpl. rewrite IH. reflexivity.
Qed.

Lemma sum_window_keyed (cutoff : Q) (acc : R) (tr : list (Z * R)) :
  sum_window cutoff acc (map keyed_obs tr) =
  Returns (fold_left py_add
             (map snd (List.filter (fun p => Qle_bool cutoff (inject_Z (fst p))) tr))
             acc).
Proof.
  revert acc. induction tr as [|[t r] tr IH]; intros acc; [reflexivity|].
  simpl. destruct (Qle_bool cutoff (inject_Z t)); simpl; apply IH.
Qed.

(** On a well-formed non-empty history [calculate_stats] returns the
    record computed from the descending sort [sort_desc tr]. *)
Lemma calculate_stats_clean (tr : list (Z * R)) (now : Q) :
  tr <> [] ->
  calculate_stats (map obs_of tr) now =
  Returns (Some (mkStats
    (match sort_desc tr with p :: _ => snd p | [] => py_zero end)
    (py_sum (window_rates now 24 (sort_desc tr)))
    (py_sum (window_rates now 72 (sort_desc tr)))
    (py_sum (window_rates now 168 (sort_desc tr)))
    (py_sum (window_rates now 720 (sort_desc tr)))
    (py_div (py_sum (map snd tr)) (py_of_nat (length tr)))
    (py_max (map snd tr)) (py_min (map snd tr)) (length tr))).
Proof.
  intros Hne.
  destruct tr as [|p0 tr0] eqn:Etr; [congruence|]. rewrite <- Etr.
  assert (Hd : map obs_of tr <> []) by (rewrite Etr; discriminate).
  unfold calculate_stats.
  destruct (map obs_of tr) as [|d0 ds] eqn:Emap; [congruence|].
  rewrite <- Emap.
  unfold sorted_by_time_desc. rewrite mapM_keyed. cbn [mbind outcome_bind mret outcome_ret].
  rewrite mapM_rates. cbn [mbind outcome_bind].
  assert (Hs : sort_desc (map keyed_obs tr) = map keyed_obs (sort_desc tr))
    by apply (sort_desc_map obs_of tr).
  rewrite Hs. unfold sum_hours. rewrite !sum_window_keyed.
  cbn [mbind outcome_bind].
  unfold window_rates, in_window, py_sum.
  destruct (sort_desc tr) as [|[t r] rest] eqn:Es.
  { pose proof (sort_desc_perm tr) as Hp. rewrite Es in Hp.
    apply Permutation_nil in Hp. congruence. }
  cbn [map keyed_obs fst snd get_rate fundingRate obs_of mbind outcome_bind].
  rewrite !length_map.
  destruct (map snd tr) eqn:Er.
  { rewrite Etr in Er. discriminate. }
  reflexivity.
Qed.

End StatsProofs.

(** ** Exact arithmetic: the mean lies between the extremes *)

Section QBounds.
Local Open Scope Q_scope.

Definition qmax_step (m y : Q) : Q := if negb (Qle_bool y m) then y else m.
Definition qmin_step (m y : Q) : Q := if negb (Qle_bool m y) then y else m.

Lemma qmax_fold (rest : list Q) (acc : Q) :
  acc <= fold_left qmax_step rest acc /\
  forall y, In y rest -> y <= fold_left qmax_step rest acc.
Proof.
  revert acc. induction rest as [|z rest IH]; intros acc; simpl.
  - split; [apply Qle_refl | intros _ []].
  - destruct (IH (qmax_step acc z)) as [Hge Hall].
    assert (Hz : acc <= qmax_step acc z /\ z <= qmax_step acc z).
    { unfold qmax_step. destruct (Qle_bool z acc) eqn:E; simpl.
      - apply Qle_bool_iff in E. split; [apply Qle_refl | exact E].
      - split; [|apply Qle_refl].
        apply Qlt_le_weak, Qnot_le_lt. intros Hle.
        apply Qle_bool_iff in Hle. congruence. }
    split.
    + eapply Qle_trans; [apply Hz|exact Hge].
    + intros y [<-|Hy]; [eapply Qle_trans; [apply Hz|exact Hge]|exact (Hall y Hy)].
Qed.

Lemma qmin_fold (rest : list Q) (acc : Q) :
  fold_left qmin_step rest acc <= acc /\
  forall y, In y rest -> fold_left qmin_step rest acc <= y.
Proof.
  revert acc. induction rest as [|z rest IH]; intros acc; simpl.
  - split; [apply Qle_refl | intros _ []].
  - destruct (IH (qmin_step acc z)) as [Hle Hall].
    assert (Hz : qmin_step acc z <= acc /\ qmin_step acc z <= z).
    { unfold qmin_step. destruct (Qle_bool acc z) eqn:E; simpl.
      - apply Qle_bool_iff in E. split; [apply Qle_refl | exact E].
      - split; [|apply Qle_refl].
        apply Qlt_le_weak, Qnot_le_lt. intros Hle'.
        apply Qle_bool_iff in Hle'. congruence. }
    split.
    + eapply Qle_trans; [exact Hle|apply Hz].
    + intros y [<-|Hy]; [eapply Qle_trans; [exact Hle|apply Hz]|exact (Hall y Hy)].
Qed.

Lemma py_max_ge (x : Q) (rest : list Q) :
  forall y, In y (x :: rest) -> y <= py_max (x :: rest).
Proof.
  destruct (qmax_fold rest x) as [Hx Hall].
  intros y [<-|Hy]; [exact Hx|exact (Hall y Hy)].
Qed.

Lemma py_min_le (x : Q) (rest : list Q) :
  forall y, In y (x :: rest) -> py_min (x :: rest) <= y.
Proof.
  destruct (qmin_fold rest x) as [Hx Hall].
  intros y [<-|Hy]; [exact Hx|exact (Hall y Hy)].
Qed.

Lemma inject_Z_succ (n : nat) :
  inject_Z (Z.of_nat (S n)) == inject_Z (Z.of_nat n) + 1.
Proof. rewrite Nat2Z.inj_succ, <- Z.add_1_r, inject_Z_plus. reflexivity. Qed.

Lemma fold_sum_upper (M : Q) (xs : list Q) (a : Q) :
  (forall y, In y xs -> y <= M) ->
  fold_left Qplus xs a <= a + inject_Z (Z.of_nat (length xs)) * M.
Proof.
  revert a. induction xs as [|z xs IH]; intros a Hb; simpl.
  - rewrite Qmult_0_l, Qplus_0_r. apply Qle_refl.
  - rewrite inject_Z_succ.
    eapply Qle_trans; [apply IH; intros y Hy; apply Hb; right; exact Hy|].
    assert (z <= M) by (apply Hb; left; reflexivity). nra.
Qed.

Lemma fold_sum_lower (m : Q) (xs : list Q) (a : Q) :
  (forall y, In y xs -> m <= y) ->
  a + inject_Z (Z.of_nat (length xs)) * m <= fold_left Qplus xs a.
Proof.
  revert a. induction xs as [|z xs IH]; intros a Hb; simpl.
  - rewrite Qmult_0_l, Qplus_0_r. apply Qle_refl.
  - rewrite inject_Z_succ.
    eapply Qle_trans; [|apply IH; intros y Hy; apply Hb; right; exact Hy].
    assert (m <= z) by (apply Hb; left; reflexivity). nra.
Qed.

Lemma avg_between (xs : list Q) :
  xs <> [] ->
  py_min xs <= py_div (py_sum xs) (py_of_nat (length xs)) <= py_max xs.
Proof.
  destruct xs as [|x rest]; [congruence|]. intros _.
  cbn [py_div py_of_nat Q_PyNum].
  assert (Hn : 0 < inject_Z (Z.of_nat (length (x :: rest)))).
  { change 0 with (inject_Z 0). rewrite <- Zlt_Qlt. simpl length. lia. }
  unfold py_sum; cbn [py_add py_zero Q_PyNum].
  split.
  - apply Qle_shift_div_l; [exact Hn|].
    pose proof (fold_sum_lower (py_min (x :: rest)) (x :: rest) 0
                  (py_min_le x rest)) as Hl.
    rewrite Qplus_0_l, Qmult_comm in Hl. exact Hl.
  - apply Qle_shift_div_r; [exact Hn|].
    pose proof (fold_sum_upper (py_max (x :: rest)) (x :: rest) 0
                  (py_max_ge x rest)) as Hu.
    rewrite Qplus_0_l, Qmult_comm in Hu. exact Hu.
Qed.

End QBounds.

Lemma calculate_stats_not_none {R} `{PyNum R} (data : list (observation R)) (now : Q) :
  data <> [] -> calculate_stats data now <> Returns None.
Proof.
  intros Hne. unfold calculate_stats.
  destruct data as [|d ds]; [congruence|].
  unfold mbind, outcome_bind; cbv beta.
  repeat match goal with
         | |- context [match ?m with Returns _ => _ | Raises => _ end] =>
             destruct m
         | |- context [match ?m with [] => _ | _ :: _ => _ end] =>
             let x := fresh "x" in let l := fresh "l" in
             destruct m as [|x l]; try destruct x
         end; discriminate.
Qed.

(* ------------------------------------------------------------------ *)
(** ** Claims about [calculate_stats] *)

(** C5: on a non-empty history each windowed statistic (1d, 3d, 7d, 30d)
    is a plain sum ([sum()], started at [0]) of the rates of exactly the
    observations with [time >= now - W] for W = 24, 72, 168, 720 hours:
    the summed list is a permutation of those rates (the code adds them
    in descending time order). *)
Theorem calculate_stats_window_sums {R} `{PyNum R} (tr : list (Z * R)) (now : Q) :
  tr <> [] ->
  exists s, calculate_stats (map obs_of tr) now = Returns (Some s) /\
  exists l1 l3 l7 l30,
    sum1d s = py_sum l1 /\ Permutation l1 (window_rates now 24 tr) /\
    sum3d s = py_sum l3 /\ Permutation l3 (window_rates now 72 tr) /\
    sum7d s = py_sum l7 /\ Permutation l7 (window_rates now 168 tr) /\
    sum30d s = py_sum l30 /\ Permutation l30 (window_rates now 720 tr).
Proof.
  intros Hne. rewrite (calculate_stats_clean tr now Hne).
  eexists. split; [reflexivity|]. cbn [sum1d sum3d sum7d sum30d].
  assert (Hp : forall h, Permutation (window_rates now h (sort_desc tr))
                                     (window_rates now h tr)).
  { intros h. unfold window_rates. apply Permutation_map, filter_perm,
      sort_desc_perm. }
  do 4 eexists. repeat split; apply Hp.
Qed.

Lemma calculate_stats_window_sums_witness :
  (Z0, 1 # 10000) :: (1%Z, -2 # 10000) :: (2%Z, 3 # 10000) :: [] <> [] /\
  exists s, calculate_stats three_obs 1000 = Returns (Some s) /\
  exists l1 l3 l7 l30,
    sum1d s = py_sum l1 /\ Permutation l1 (window_rates 1000 24 [(Z0, 1 # 10000); (1%Z, -2 # 10000); (2%Z, 3 # 10000)]) /\
    sum3d s = py_sum l3 /\ Permutation l3 (window_rates 1000 72 [(Z0, 1 # 10000); (1%Z, -2 # 10000); (2%Z, 3 # 10000)]) /\
    sum7d s = py_sum l7 /\ Permutation l7 (window_rates 1000 168 [(Z0, 1 # 10000); (1%Z, -2 # 10000); (2%Z, 3 # 10000)]) /\
    sum30d s = py_sum l30 /\ Permutation l30 (window_rates 1000 720 [(Z0, 1 # 10000); (1%Z, -2 # 10000); (2%Z, 3 # 10000)]).
Proof.
  split; [discriminate|].
  apply (calculate_stats_window_sums [(Z0, 1 # 10000); (1%Z, -2 # 10000); (2%Z, 3 # 10000)] 1000).
  discriminate.
Defined.

(** Three rates of [0.1] as IEEE doubles. *)
#[warnings="-inexact-float"]
Definition tenths : list (observation float) :=
  map obs_of [(0%Z, 0.1%float); (1%Z, 0.1%float); (2%Z, 0.1%float)].

(** C6 (counterexample): with IEEE doubles, [sum(rates) / len(rates)]
    for three rates of [0.1] is [0.30000000000000004 / 3], which rounds
    to [0.10000000000000002]: the average is strictly above the
    maximum, so [min <= avg <= max] fails. *)
Lemma calculate_stats_avg_above_max :
  match calculate_stats tenths 0 with
  | Returns (Some s) => PrimFloat.ltb (max s) (avg s) = true
  | _ => False
  end.
Proof. vm_compute. reflexivity. Qed.

(** C6 (amended): on a non-empty history of well-formed observations,
    for any number type (IEEE doubles included), [calculate_stats]
    returns stats whose count is the number of observations and whose
    average, maximum and minimum are [sum(rates) / len(rates)],
    [max(rates)] and [min(rates)] over the rates of all observations;
    with exact arithmetic (rationals) moreover [min <= avg <= max]. *)
Theorem calculate_stats_aggregates :
  (forall (R : Type) (HR : PyNum R) (tr : list (Z * R)) (now : Q),
    tr <> [] ->
    exists s, calculate_stats (map obs_of tr) now = Returns (Some s) /\
      count s = length tr /\
      avg s = py_div (py_sum (map snd tr)) (py_of_nat (length tr)) /\
      max s = py_max (map snd tr) /\
      min s = py_min (map snd tr)) /\
  (forall (tr : list (Z * Q)) (now : Q),
    tr <> [] ->
    exists s, calculate_stats (map obs_of tr) now = Returns (Some s) /\
      (min s <= avg s <= max s)%Q).
Proof.
  split.
  - intros R HR tr now Hne. rewrite (calculate_stats_clean tr now Hne).
    eexists. split; [reflexivity|]. cbn [count avg max min].
    repeat split.
  - intros tr now Hne. rewrite (calculate_stats_clean tr now Hne).
    eexists. split; [reflexivity|]. cbn [avg max min].
    rewrite <- (length_map snd tr). apply avg_between.
    destruct tr; [congruence|discriminate].
Qed.

Lemma calculate_stats_aggregates_witness :
  exists s, calculate_stats three_obs 1000 = Returns (Some s) /\
    (min s <= avg s <= max s)%Q.
Proof.
  apply (proj2 calculate_stats_aggregates
           [(Z0, 1 # 10000); (1%Z, -2 # 10000); (2%Z, 3 # 10000)] 1000%Q).
  discriminate.
Defined.

(** C7: [calculate_stats] depends only on the history and the clock
    reading it takes: two calls on the same history that read the same
    time (whatever the rest of the world) give the same result, and a
    call sends no request and leaves the trace as it was; [sorted()]
    builds a new list, the history is only read. *)
Theorem calculate_stats_same_reading {R} `{PyNum R} (clock clock' : nat -> Q)
    (data : list (observation R)) (w w' : world) :
  clock (nclock w) = clock' (nclock w') ->
  fst (calculate_stats_io clock data w) = fst (calculate_stats_io clock' data w') /\
  trace (snd (calculate_stats_io clock data w)) = trace w /\
  ncalls (snd (calculate_stats_io clock data w)) = ncalls w.
Proof.
  intros Hnow. unfold calculate_stats_io, read_clock.
  destruct data as [|d ds]; simpl; [auto|].
  rewrite Hnow. auto.
Qed.

Lemma calculate_stats_same_reading_witness :
  let clock := fun n : nat => inject_Z (Z.of_nat (n / 2 * 1000)) in
  clock 0%nat = clock 1%nat /\
  fst (calculate_stats_io clock three_obs world0) =
  fst (calculate_stats_io clock three_obs (snd (calculate_stats_io clock three_obs world0))) /\
  trace (snd (calculate_stats_io clock three_obs world0)) = trace world0 /\
  ncalls (snd (calculate_stats_io clock three_obs world0)) = ncalls world0.
Proof.
  intros clock. split; [reflexivity|].
  apply (calculate_stats_same_reading clock clock three_obs world0
           (snd (calculate_stats_io clock three_obs world0))).
  reflexivity.
Defined.

(** C9: on a non-empty history the current rate [rate8h] is the rate of
    the first element of the descending sort by time, an observation of
    the history with a maximal timestamp.  The history itself is only
    read: the sort is a new list. *)
Theorem calculate_stats_current_rate {R} `{PyNum R} (tr : list (Z * R)) (now : Q) :
  tr <> [] ->
  exists s t rest,
    calculate_stats (map obs_of tr) now = Returns (Some s) /\
    sort_desc tr = (t, rate8h s) :: rest /\
    In (t, rate8h s) tr /\
    forall p, In p tr -> (fst p <= t)%Z.
Proof.
  intros Hne. rewrite (calculate_stats_clean tr now Hne).
  destruct (sort_desc_head tr Hne) as ([t r] & rest & Hs & Hin & Hmax).
  rewrite Hs. eexists. exists t, rest. cbn [rate8h snd].
  split; [reflexivity|]. split; [reflexivity|]. split; [exact Hin|exact Hmax].
Qed.

Lemma calculate_stats_current_rate_witness :
  exists s t rest,
    calculate_stats three_obs 1000 = Returns (Some s) /\
    sort_desc [(Z0, 1 # 10000); (1%Z, -2 # 10000); (2%Z, 3 # 10000)] = (t, rate8h s) :: rest /\
    In (t, rate8h s) [(Z0, 1 # 10000); (1%Z, -2 # 10000); (2%Z, 3 # 10000)] /\
    forall p, In p [(Z0, 1 # 10000); (1%Z, -2 # 10000); (2%Z, 3 # 10000)] -> (fst p <= t)%Z.
Proof.
  apply (calculate_stats_current_rate
           [(Z0, 1 # 10000); (1%Z, -2 # 10000); (2%Z, 3 # 10000)] 1000).
  discriminate.
Defined.


(* ------------------------------------------------------------------ *)
(** ** Properties of [fetch_funding_history] *)

(** A failed attempt that the retry loop absorbs: the request raises or
    is answered with 429. *)
Definition soft_fail {R} (r : response R) : Prop :=
  r = TransportError \/ exists b, r = HttpResponse 429 b.

(** The attempts spent on one page that succeeds: fewer than
    [max_retries] absorbed failures, then status 200 with a full page
    (at least 500 well-formed records). *)
Definition page_attempts {R} (att : list (response R)) (pg : list (observation R)) : Prop :=
  exists pre, att = pre ++ [HttpResponse 200 (BodyList pg)] /\
    (length pre < max_retries)%nat /\ Forall soft_fail pre /\
    (500 <= length pg)%nat /\ Forall (fun d => is_Some (time d)) pg.

(** An endpoint answering the n-th request with the n-th response of a
    script (and raising once the script is over). *)
Definition scripted {R} (rs : list (response R)) : nat -> payload -> response R :=
  fun i _ => nth i rs TransportError.

Section FetchProofs.
Context {R : Type}.
Implicit Types (server : nat -> payload -> response R) (acc data : list (observation R)).

Lemma mapM_get_time_ok data :
  Forall (fun d => is_Some (time d)) data ->
  exists ts, mapM get_time data = Returns ts /\ length ts = length data.
Proof.
  induction 1 as [|d ds [t Ht] _ [ts [Hm Hl]]].
  - exists []. split; reflexivity.
  - exists (t :: ts). simpl.
    assert (Hg : get_time d = Returns t) by (unfold get_time; rewrite Ht; reflexivity).
    rewrite Hg, Hm.
    split; [reflexivity|simpl; lia].
Qed.

Lemma attempt_ok acc data :
  (500 <= length data)%nat -> Forall (fun d => is_Some (time d)) data ->
  exists next, attempt (HttpResponse 200 (BodyList data)) acc = ABreak (acc ++ data) next.
Proof.
  intros Hlen Hall. destruct (mapM_get_time_ok data Hall) as [ts [Hm Hl]].
  unfold attempt. cbn -[max_time].
  destruct data as [|d ds]; [simpl in Hlen; lia|].
  unfold max_time. rewrite Hm. cbn [mbind outcome_bind].
  destruct ts as [|t ts']; [simpl in Hl; lia|].
  rewrite (proj2 (Nat.leb_gt (length (d :: ds)) 499) ltac:(lia)).
  eexists. reflexivity.
Qed.

Lemma soft_fail_attempt (r : response R) acc :
  soft_fail r -> attempt r acc = AExcept acc \/ attempt r acc = AContinue429.
Proof.
  intros [->|[b ->]]; [left|right]; reflexivity.
Qed.

(** Absorbed failures on every remaining pass leave the accumulated
    list as it was and do not [break]. *)
Lemma retry_loop_soft_exhaust server it p left : forall retry acc w,
  (retry + left = max_retries)%nat ->
  (forall k q, (k < left)%nat -> soft_fail (server (ncalls w + k)%nat q)) ->
  exists e w', retry_loop server it p retry left acc w = (e, acc, w') /\
               (e = RetReturn \/ e = RetExhausted).
Proof.
  induction left as [|left IH]; intros retry acc w Hr Hs.
  - exists RetExhausted, w. split; [reflexivity|right; reflexivity].
  - cbn [retry_loop]. unfold post.
    assert (H0 := Hs 0%nat p ltac:(lia)). rewrite Nat.add_0_r in H0.
    assert (Hs' : forall k q, (k < left)%nat ->
              soft_fail (server (S (ncalls w) + k)%nat q)).
    { intros k q Hk. replace (S (ncalls w) + k)%nat with (ncalls w + S k)%nat by lia.
      apply Hs. lia. }
    destruct (soft_fail_attempt _ acc H0) as [Ha|Ha]; rewrite Ha.
    + destruct (Nat.eqb_spec retry (max_retries - 1)).
      * eexists _, _. split; [reflexivity|left; reflexivity].
      * apply IH; [lia|exact Hs'].
    + apply IH; [lia|exact Hs'].
Qed.

(** A page whose attempts are [pre] (absorbed failures) and then a full
    page: the loop [break]s with the page appended. *)
Lemma retry_loop_success server it p pre data : forall retry left acc w,
  (retry + left = max_retries)%nat -> (length pre < left)%nat ->
  Forall soft_fail pre ->
  (500 <= length data)%nat -> Forall (fun d => is_Some (time d)) data ->
  (forall k q, (k <= length pre)%nat -> server (ncalls w + k)%nat q =
               nth k (pre ++ [HttpResponse 200 (BodyList data)]) TransportError) ->
  exists next w', retry_loop server it p retry left acc w = (RetBreak next, acc ++ data, w') /\
                  ncalls w' = (ncalls w + length pre + 1)%nat.
Proof.
  induction pre as [|r pre IH]; intros retry left acc w Hr Hlt Hsoft Hlen Hall Hsrv.
  - destruct left as [|left]; [simpl in Hlt; lia|].
    cbn [retry_loop]. unfold post.
    assert (H0 := Hsrv 0%nat p ltac:(lia)). rewrite Nat.add_0_r in H0. simpl in H0. rewrite H0.
    destruct (attempt_ok acc data Hlen Hall) as [next Ha]. simpl app in Ha. rewrite Ha.
    eexists _, _. split; [reflexivity|]. simpl. lia.
  - destruct left as [|left]; [simpl in Hlt; lia|].
    inversion Hsoft as [|? ? Hr0 Hsoft']; subst.
    cbn [retry_loop]. unfold post.
    assert (H0 := Hsrv 0%nat p ltac:(lia)). rewrite Nat.add_0_r in H0. rewrite H0.
    cbn [nth app].
    assert (Hsrv' : forall k q, (k <= length pre)%nat -> server (S (ncalls w) + k)%nat q =
              nth k (pre ++ [HttpResponse 200 (BodyList data)]) TransportError).
    { intros k q Hk. replace (S (ncalls w) + k)%nat with (ncalls w + S k)%nat by lia.
      rewrite Hsrv; [reflexivity|simpl; lia]. }
    simpl in Hlt.
    destruct (soft_fail_attempt r acc Hr0) as [Ha|Ha]; rewrite Ha.
    + destruct (Nat.eqb_spec retry (max_retries - 1)) as [E|E];
        [unfold max_retries in *; lia|].
      lazymatch goal with
      | |- context [retry_loop server it p (S retry) left acc ?w1] =>
        destruct (IH (S retry) left acc w1 ltac:(lia) ltac:(lia) Hsoft' Hlen Hall Hsrv')
          as (next & w' & Hl & Hc)
      end.
      exists next, w'. split; [exact Hl|]. simpl in Hc |- *. lia.
    + lazymatch goal with
      | |- context [retry_loop server it p (S retry) left acc ?w1] =>
        destruct (IH (S retry) left acc w1 ltac:(lia) ltac:(lia) Hsoft' Hlen Hall Hsrv')
          as (next & w' & Hl & Hc)
      end.
      exists next, w'. split; [exact Hl|]. simpl in Hc |- *. lia.
Qed.

Lemma page_loop_script server coin end_time
    (pages : list (list (response R) * list (observation R)))
    (fails : list (response R)) : forall it left cur acc w,
  (length pages < left)%nat ->
  Forall (fun ap => page_attempts (fst ap) (snd ap)) pages ->
  length fails = max_retries -> Forall soft_fail fails ->
  (forall k q, server (ncalls w + k)%nat q =
               nth k (concat (map fst pages) ++ fails) TransportError) ->
  fst (page_loop server coin end_time it left cur acc w) =
  acc ++ concat (map snd pages).
Proof.
  induction pages as [|[att pg] pages IH];
    intros it left cur acc w Hlt Hpages Hlf Hsf Hsrv;
    (destruct left as [|left]; [simpl in Hlt; lia|]); cbn [page_loop].
  - cbn [map concat app] in Hsrv.
    destruct (retry_loop_soft_exhaust server it (make_payload coin cur end_time)
                max_retries 0 acc w eq_refl) as (e & w' & Hl & He).
    { intros k q Hk. rewrite Hsrv. apply (proj1 (List.Forall_forall _ _) Hsf).
      apply List.nth_In. lia. }
    rewrite Hl. destruct He as [->| ->]; simpl; rewrite app_nil_r; reflexivity.
  - inversion Hpages as [|? ? Hpa Hpages']; subst.
    destruct Hpa as (pre & Hatt & Hpre & Hsoft & Hlen & Hall). cbn [fst snd] in *.
    subst att.
    destruct (retry_loop_success server it (make_payload coin cur end_time) pre pg
                0 max_retries acc w eq_refl Hpre Hsoft Hlen Hall) as (next & w' & Hl & Hc).
    { intros k q Hk. rewrite Hsrv. cbn [map concat].
      rewrite <- app_assoc. apply app_nth1. rewrite length_app. simpl. lia. }
    rewrite Hl.
    rewrite (IH (S it) left next (acc ++ pg) w'); [| simpl in Hlt; lia | exact Hpages'
            | exact Hlf | exact Hsf |].
    + cbn [map concat snd]. rewrite app_assoc. reflexivity.
    + intros k q. rewrite Hc.
      replace (ncalls w + length pre + 1 + k)%nat
        with (ncalls w + (length (pre ++ [HttpResponse 200 (BodyList pg)]) + k))%nat
        by (rewrite length_app; simpl; lia).
      rewrite Hsrv. cbn [map concat fst]. rewrite <- app_assoc.
      apply app_nth2_plus.
Qed.

Lemma page_loop_full server coin end_time (pg : nat -> list (observation R)) :
  (forall i q, server i q = HttpResponse 200 (BodyList (pg i))) ->
  (forall i, (500 <= length (pg i))%nat /\ Forall (fun d => is_Some (time d)) (pg i)) ->
  forall left it cur acc w,
  fst (page_loop server coin end_time it left cur acc w) =
  acc ++ concat (map pg (seq (ncalls w) left)).
Proof.
  intros Hsrv Hpg. induction left as [|left IH]; intros it cur acc w.
  - simpl. rewrite app_nil_r. reflexivity.
  - cbn [page_loop]. destruct (Hpg (ncalls w)) as [Hlen Hall].
    destruct (retry_loop_success server it (make_payload coin cur end_time) [] (pg (ncalls w))
                0 max_retries acc w eq_refl ltac:(simpl; unfold max_retries; lia)
                (List.Forall_nil _) Hlen Hall) as (next & w' & Hl & Hc).
    { intros k q Hk. simpl in Hk. assert (k = 0%nat) as -> by lia.
      rewrite Nat.add_0_r. apply Hsrv. }
    rewrite Hl, IH, Hc. cbn [seq map concat]. simpl length.
    rewrite Nat.add_0_r, Nat.add_1_r, app_assoc. reflexivity.
Qed.

Lemma retry_loop_bound server it p : forall left retry acc w,
  let '(_, _, w') := retry_loop server it p retry left acc w in
  exists new, trace w' = trace w ++ new /\
    (forall i q, In (Post i q) new -> i = it) /\
    (ncalls w' <= ncalls w + left)%nat.
Proof.
  induction left as [|left IH]; intros retry acc w.
  - exists []. rewrite app_nil_r. split; [reflexivity|]. split; [intros _ _ []|lia].
  - cbn [retry_loop]. unfold post.
    destruct (attempt (server (ncalls w) p) acc) as [|acc'|acc' next|acc'].
    4: destruct (retry =? max_retries - 1)%nat.
    all: lazymatch goal with
         | |- context [retry_loop _ _ _ ?r _ ?a (sleep ?s ?w0)] =>
           specialize (IH r a (sleep s w0));
           destruct (retry_loop server it p r left a (sleep s w0)) as [[e a'] w'];
           destruct IH as (new & Ht & Hp & Hn);
           exists (Post it p :: Sleep s :: new);
           split; [rewrite Ht; simpl; rewrite <- !app_assoc; reflexivity|];
           split; [intros i q [Hq|[Hq|Hq]]; [congruence|discriminate|exact (Hp i q Hq)]
                  |simpl in Hn; lia]
         | _ => exists [Post it p]; split; [reflexivity|];
                split; [intros i q [Hq|[]]; congruence|simpl; lia]
         end.
Qed.

Lemma page_loop_bound server coin end_time : forall left it cur acc w,
  let '(_, w') := page_loop server coin end_time it left cur acc w in
  exists new, trace w' = trace w ++ new /\
    (forall i q, In (Post i q) new -> it <= i < it + left)%nat /\
    (ncalls w' <= ncalls w + left * max_retries)%nat.
Proof.
  induction left as [|left IH]; intros it cur acc w.
  - exists []. rewrite app_nil_r. split; [reflexivity|]. split; [intros _ _ []|lia].
  - cbn [page_loop].
    pose proof (retry_loop_bound server it (make_payload coin cur end_time)
                  max_retries 0 acc w) as Hr.
    destruct (retry_loop server it (make_payload coin cur end_time) 0 max_retries acc w)
      as [[e acc'] w1].
    destruct Hr as (new1 & Ht1 & Hp1 & Hn1).
    destruct e as [|next|].
    2: { specialize (IH (S it) next acc' w1).
         destruct (page_loop server coin end_time (S it) left next acc' w1) as [res w'].
         destruct IH as (new2 & Ht2 & Hp2 & Hn2).
         exists (new1 ++ new2). split; [rewrite Ht2, Ht1, app_assoc; reflexivity|].
         split; [|unfold max_retries in *; lia].
         intros i q Hin. apply in_app_or in Hin as [Hin|Hin].
         - rewrite (Hp1 i q Hin). lia.
         - specialize (Hp2 i q Hin). lia. }
    all: exists new1; split; [exact Ht1|]; split;
         [intros i q Hin; rewrite (Hp1 i q Hin); lia|unfold max_retries in *; lia].
Qed.

End FetchProofs.

(* ------------------------------------------------------------------ *)
(** ** Claims about [fetch_funding_history] *)

(** C2: on any page (iteration [it], cursor [cur], accumulated [acc]):
    three 429 answers make the loop send the same request three times,
    sleeping 2, 4 and 6 seconds after them, and then return [acc] as it
    was; a status other than 200 and 429 returns [acc] at once.  The
    function has no exception in its result type: every raising step
    of the code is inside its [try]. *)
Theorem page_loop_rate_limited {R} (server : nat -> payload -> response R)
    (coin : string) (end_time : option Z) (it left : nat) (cur : Z)
    (acc : list (observation R)) (w : world) :
  ((forall k, (k < 3)%nat -> exists b,
       server (ncalls w + k)%nat (make_payload coin cur end_time) = HttpResponse 429 b) ->
   page_loop server coin end_time it (S left) cur acc w =
   (acc, mkWorld (trace w ++ [Post it (make_payload coin cur end_time); Sleep (inject_Z 2);
                              Post it (make_payload coin cur end_time); Sleep (inject_Z 4);
                              Post it (make_payload coin cur end_time); Sleep (inject_Z 6)])
                 (ncalls w + 3) (nclock w))) /\
  (forall status b,
     server (ncalls w) (make_payload coin cur end_time) = HttpResponse status b ->
     status <> 429%Z -> status <> 200%Z ->
     page_loop server coin end_time it (S left) cur acc w =
     (acc, mkWorld (trace w ++ [Post it (make_payload coin cur end_time)])
                   (S (ncalls w)) (nclock w))).
Proof.
  set (p := make_payload coin cur end_time). split.
  - intros H429.
    destruct (H429 0%nat ltac:(lia)) as [b0 H0].
    destruct (H429 1%nat ltac:(lia)) as [b1 H1].
    destruct (H429 2%nat ltac:(lia)) as [b2 H2].
    rewrite Nat.add_0_r in H0.
    replace (ncalls w + 1)%nat with (S (ncalls w)) in H1 by lia.
    replace (ncalls w + 2)%nat with (S (S (ncalls w))) in H2 by lia.
    cbn [page_loop retry_loop post max_retries]. fold p.
    rewrite H0. cbn. rewrite H1. cbn. rewrite H2. cbn.
    unfold sleep. cbn. rewrite <- !app_assoc. replace (ncalls w + 3)%nat with (S (S (S (ncalls w)))) by lia.
    reflexivity.
  - intros status b Hs H429 H200.
    cbn [page_loop retry_loop post max_retries]. fold p. rewrite Hs.
    unfold attempt.
    rewrite (proj2 (Z.eqb_neq _ _) H429), (proj2 (Z.eqb_neq _ _) H200). reflexivity.
Qed.

Lemma page_loop_rate_limited_witness :
  let server := fun (i : nat) (_ : payload) =>
    if (i <? 3)%nat then HttpResponse 429 (@BodyNotList Q) else HttpResponse 500 BodyNotList in
  page_loop server "BTC" None 0 19 0 [] world0 =
  ([], mkWorld ([] ++ [Post 0 (make_payload "BTC" 0 None); Sleep (inject_Z 2);
                       Post 0 (make_payload "BTC" 0 None); Sleep (inject_Z 4);
                       Post 0 (make_payload "BTC" 0 None); Sleep (inject_Z 6)]) (0 + 3) 0).
Proof.
  intros server.
  apply (proj1 (page_loop_rate_limited server "BTC" None 0 19 0 [] world0)).
  intros k Hk. exists BodyNotList. unfold server. simpl.
  destruct (Nat.ltb_spec k 3); [reflexivity|lia].
Defined.

(** C3: whatever the endpoint answers, [fetch_funding_history] returns
    (it is a total function) after requests that all belong to pages
    [0 .. 19] (at most [max_iterations] = 20 pages, at most 60
    requests); when every answer is a full page of (at least) 500
    records the loop stops at the cap and returns the 20 pages
    accumulated, in order. *)
Theorem fetch_funding_history_page_cap {R} (server : nat -> payload -> response R)
    (coin : string) (start_time : Z) (end_time : option Z) (w : world) :
  (let '(_, w') := fetch_funding_history server coin start_time end_time w in
   exists new, trace w' = trace w ++ new /\
     (forall i q, In (Post i q) new -> (i < max_iterations)%nat) /\
     (ncalls w' <= ncalls w + max_iterations * max_retries)%nat) /\
  (forall pg : nat -> list (observation R),
     (forall i, (500 <= length (pg i))%nat /\ Forall (fun d => is_Some (time d)) (pg i)) ->
     fst (fetch_funding_history (fun i _ => HttpResponse 200 (BodyList (pg i)))
            coin start_time end_time w) =
     concat (map pg (seq (ncalls w) max_iterations))).
Proof.
  split.
  - unfold fetch_funding_history.
    pose proof (page_loop_bound server coin end_time max_iterations 0 start_time [] w) as Hb.
    destruct (page_loop server coin end_time 0 max_iterations start_time [] w) as [res w'].
    destruct Hb as (new & Ht & Hp & Hn). exists new.
    split; [exact Ht|]. split; [|exact Hn].
    intros i q Hin. specialize (Hp i q Hin). lia.
  - intros pg Hpg. unfold fetch_funding_history.
    rewrite (page_loop_full _ coin end_time pg (fun i q => eq_refl) Hpg). reflexivity.
Qed.

Definition full_page_at (i : nat) : list (observation Q) :=
  full_page (Z.of_nat i * 500).

Lemma fetch_funding_history_page_cap_witness :
  (forall i, (500 <= length (full_page_at i))%nat /\
             Forall (fun d => is_Some (time d)) (full_page_at i)) /\
  fst (fetch_funding_history (fun i _ => HttpResponse 200 (BodyList (full_page_at i)))
         "BTC" 0 (Some 1000000%Z) world0) =
  concat (map full_page_at (seq (ncalls world0) max_iterations)).
Proof.
  assert (Hpg : forall i, (500 <= length (full_page_at i))%nat /\
             Forall (fun d => is_Some (time d)) (full_page_at i)).
  { intros i. unfold full_page_at, full_page. rewrite length_map, length_seq.
    split; [lia|]. apply List.Forall_forall. intros d Hd.
    apply in_map_iff in Hd as (k & <- & _). eexists. reflexivity. }
  split; [exact Hpg|].
  pose proof (fetch_funding_history_page_cap
                (fun i _ => HttpResponse 200 (BodyList (full_page_at i)))
                "BTC" 0 (Some 1000000%Z) world0) as H.
  destruct H as [_ H].
  specialize (H full_page_at Hpg).
  exact H.
Defined.

(** C4: if each of the first pages succeeds (possibly after absorbed
    failures: transport errors or 429) with a full page, and the next
    page fails on all of its [max_retries] attempts, the result is the
    concatenation of the successful pages, in order. *)
Theorem fetch_funding_history_partial {R}
    (pages : list (list (response R) * list (observation R)))
    (fails : list (response R)) (coin : string) (start_time : Z) (end_time : option Z) :
  (length pages < max_iterations)%nat ->
  Forall (fun ap => page_attempts (fst ap) (snd ap)) pages ->
  length fails = max_retries -> Forall soft_fail fails ->
  fst (fetch_funding_history (scripted (concat (map fst pages) ++ fails))
         coin start_time end_time world0) =
  concat (map snd pages).
Proof.
  intros Hlt Hpages Hlf Hsf. unfold fetch_funding_history.
  apply (page_loop_script _ coin end_time pages fails 0 max_iterations start_time [] world0
           Hlt Hpages Hlf Hsf).
  intros k q. reflexivity.
Qed.

Definition two_pages : list (list (response Q) * list (observation Q)) :=
  [([HttpResponse 200 (BodyList (full_page 0))], full_page 0);
   ([TransportError; HttpResponse 200 (BodyList (full_page 500))], full_page 500)].

Definition three_failures : list (response Q) :=
  [TransportError; TransportError; TransportError].

Lemma fetch_funding_history_partial_witness :
  fst (fetch_funding_history (scripted (concat (map fst two_pages) ++ three_failures))
         "BTC" 0 None world0) =
  concat (map snd two_pages).
Proof.
  assert (Hfp : forall b, (500 <= length (full_page b))%nat /\
                          Forall (fun d => is_Some (time d)) (full_page b)).
  { intros b. unfold full_page. rewrite length_map, length_seq.
    split; [lia|]. apply List.Forall_forall. intros d Hd.
    apply in_map_iff in Hd as (k & <- & _). eexists. reflexivity. }
  apply (fetch_funding_history_partial two_pages three_failures "BTC" 0 None).
  - simpl. unfold max_iterations. lia.
  - constructor; [|constructor; [|constructor]].
    + exists []. destruct (Hfp 0%Z) as [Hl Hf].
      split; [reflexivity|]. split; [unfold max_retries; simpl; lia|].
      split; [constructor|]. split; [exact Hl|exact Hf].
    + exists [TransportError]. destruct (Hfp 500%Z) as [Hl Hf].
      split; [reflexivity|]. split; [unfold max_retries; simpl; lia|].
      split; [constructor; [left; reflexivity|constructor]|].
      split; [exact Hl|exact Hf].
  - reflexivity.
  - repeat constructor.
Defined.

(* ------------------------------------------------------------------ *)
(** ** Claims about the catalog *)

Definition ok_ctx : asset_ctx Q := mkCtx (Some 1%Q) (Some 2%Q) (Some 3%Q) (Some 0%Q).

(** A ["xyz"] answer whose second universe entry has no ['name']. *)
Definition universe_missing_name : cat_response Q :=
  CatResponse 200 (MetaPair (Some [Some "xyz:A"; None]) [ok_ctx; ok_ctx]).

(** C8 (counterexample): a malformed universe entry raises [KeyError]
    in the middle of the loop; the [except] keeps what was appended
    before it, so the namespace's list and mapping are not empty. *)
Lemma fetch_namespace_partial :
  fst (fetch_namespace universe_missing_name) = ["xyz:A"] /\
  snd (fetch_namespace universe_missing_name) !! "xyz:A" = Some (mkSnap 1%Q 2%Q 3%Q 0%Q).
Proof. split; reflexivity. Qed.

Lemma universe_loop_dom {R} (pairs : list (option string * asset_ctx R)) :
  forall assets market,
  (forall c, is_Some (market !! c) -> In c assets) ->
  forall c, is_Some (snd (universe_loop pairs assets market) !! c) ->
            In c (fst (universe_loop pairs assets market)).
Proof.
  induction pairs as [|[[name|] ctx] pairs IH]; intros assets market Hinv c; simpl.
  - apply Hinv.
  - destruct (snapshot_of ctx) as [snap|]; simpl.
    + apply IH. intros c' Hc'. apply in_or_app.
      destruct (decide (c' = name)) as [->|Hne].
      * right. left. reflexivity.
      * left. apply Hinv. rewrite lookup_insert_ne in Hc' by congruence. exact Hc'.
    + intros Hc. apply in_or_app. left. apply Hinv, Hc.
  - apply Hinv.
Qed.

(** The universe loop over entries that all convert, followed by a
    malformed one (no ['name'], or a [float()] that fails): the names
    read are appended (the failing entry's too, when it has one, since
    [append] comes before the dict literal), the snapshots read are
    inserted in order, and the loop stops there. *)
Lemma universe_loop_stops {R} (bad : option string * asset_ctx R)
    (urest : list (option string)) (crest : list (asset_ctx R)) :
  (fst bad = None \/ snapshot_of (snd bad) = Raises) ->
  forall (good : list (string * asset_ctx R)) (snaps : list (snapshot R)),
  Forall2 (fun p s => snapshot_of (snd p) = Returns s) good snaps ->
  forall assets market,
  universe_loop (combine (map (fun p => Some (fst p)) good ++ fst bad :: urest)
                         (map snd good ++ snd bad :: crest)) assets market =
    (assets ++ map fst good ++ (match fst bad with Some n => [n] | None => [] end),
     foldl (fun m cs => <[fst cs := snd cs]> m) market (combine (map fst good) snaps)).
Proof.
  intros Hbad good snaps Hgs.
  induction Hgs as [|p s good snaps Hs Hgs IH]; intros assets market.
  - destruct bad as [[n|] ctx]; cbn [map app combine universe_loop fst snd foldl].
    + destruct Hbad as [Hb|Hb]; [discriminate|]. cbn [snd] in Hb. rewrite Hb. reflexivity.
    + rewrite !app_nil_r. reflexivity.
  - cbn [map app combine universe_loop foldl]. rewrite Hs. rewrite IH.
    rewrite <- app_assoc. reflexivity.
Qed.

(** C8 (amended): no failure of a namespace propagates.  A request
    that raises, a non-200 status, an unparsable body, a body that is
    not a list of at least two elements, or metadata without a
    universe give an empty symbol list and an empty mapping.  A
    malformed universe entry (no ['name']) or snapshot (a [float()]
    that fails) is absorbed too, but the entries read before it are
    kept: the list holds their names (and the failing entry's name, when
    it has one) and the mapping their snapshots, so the result can be
    partially filled.  Every symbol with a snapshot is in the list, and
    each namespace's result depends only on its own answer. *)
Theorem fetch_namespace_absorbs {R} (resp : cat_response R) :
  ((resp = CatTransportError \/
    (exists status b, resp = CatResponse status b /\ status <> 200%Z) \/
    resp = CatResponse 200 MetaRaises \/ resp = CatResponse 200 MetaNotPair \/
    (exists ctxs, resp = CatResponse 200 (MetaPair None ctxs))) ->
   fetch_namespace resp = ([], ∅)) /\
  (forall (good : list (string * asset_ctx R)) (snaps : list (snapshot R))
          (bad : option string * asset_ctx R) (urest : list (option string))
          (crest : list (asset_ctx R)),
     Forall2 (fun p s => snapshot_of (snd p) = Returns s) good snaps ->
     (fst bad = None \/ snapshot_of (snd bad) = Raises) ->
     resp = CatResponse 200 (MetaPair (Some (map (fun p => Some (fst p)) good ++ fst bad :: urest))
                                      (map snd good ++ snd bad :: crest)) ->
     fetch_namespace resp =
       (map fst good ++ (match fst bad with Some n => [n] | None => [] end),
        foldl (fun m cs => <[fst cs := snd cs]> m) ∅ (combine (map fst good) snaps))) /\
  (forall c, is_Some (snd (fetch_namespace resp) !! c) -> In c (fst (fetch_namespace resp))) /\
  (forall include_main_perp (main_resp : cat_response R),
     get_all_perp_assets include_main_perp main_resp resp =
     (if include_main_perp then fst (fetch_namespace main_resp) else [],
      fst (fetch_namespace resp),
      snd (fetch_namespace resp) ∪
        (if include_main_perp then snd (fetch_namespace main_resp) else ∅))).
Proof.
  split; [|split; [|split]].
  - intros [->|[(st & b & -> & Hst)|[->|[->|(ctxs & ->)]]]]; try reflexivity.
    simpl. rewrite (proj2 (Z.eqb_neq _ _) Hst). reflexivity.
  - intros good snaps bad urest crest Hgs Hbad ->. unfold fetch_namespace.
    cbn [Z.eqb Pos.eqb]. exact (universe_loop_stops bad urest crest Hbad good snaps Hgs [] ∅).
  - unfold fetch_namespace. destruct resp as [|status b]; [simpl; intros c [? Hc]; discriminate|].
    destruct (status =? 200)%Z; [|simpl; intros c [? Hc]; discriminate].
    destruct b as [| |[universe|] ctxs]; try (simpl; intros c [? Hc]; discriminate).
    apply universe_loop_dom. intros c [? Hc]. discriminate.
  - intros include_main_perp main_resp. unfold get_all_perp_assets.
    destruct include_main_perp;
      [destruct (fetch_namespace main_resp)|]; destruct (fetch_namespace resp); reflexivity.
Qed.

Lemma fetch_namespace_absorbs_witness :
  fetch_namespace (CatResponse 503 (@MetaNotPair Q)) = ([], ∅) /\
  fetch_namespace universe_missing_name =
    (["xyz:A"], <["xyz:A" := mkSnap 1%Q 2%Q 3%Q 0%Q]> ∅).
Proof.
  split.
  - apply (proj1 (fetch_namespace_absorbs (CatResponse 503 (@MetaNotPair Q)))).
    right. left. exists 503%Z, MetaNotPair. split; [reflexivity|discriminate].
  - pose proof (fetch_namespace_absorbs universe_missing_name) as [_ [Hpart _]].
    apply (Hpart [("xyz:A", ok_ctx)] [mkSnap 1%Q 2%Q 3%Q 0%Q] (None, ok_ctx) [] []).
    + constructor; [reflexivity|constructor].
    + left. reflexivity.
    + reflexivity.
Defined.

(* ------------------------------------------------------------------ *)
(** ** Claims about the loop of [main] *)

(** [fetch_coin_data] keys its result by the coin and gives stats
    exactly to a non-empty history. *)
Lemma fetch_coin_data_key {R} `{PyNum R} (server : nat -> payload -> response R)
    (clock : nat -> Q) (coin : string) (start_time end_time : Z) (w : world) :
  let '((key, data), _) := fetch_coin_data server clock coin start_time end_time w in
  key = coin /\ (cstats data = None <-> history data = []).
Proof.
  unfold fetch_coin_data.
  destruct (fetch_funding_history server coin start_time (Some end_time) w)
    as [hist w1].
  destruct hist as [|d ds]; [simpl; tauto|].
  unfold calculate_stats_io. destruct (read_clock clock w1) as [now w2].
  destruct (calculate_stats (d :: ds) now) as [s|] eqn:E; simpl; [|tauto].
  split; [reflexivity|]. split; intros Hc; [|discriminate].
  subst s. exfalso. apply (calculate_stats_not_none (d :: ds) now); [discriminate|exact E].
Qed.

Lemma main_loop_coverage {R} `{PyNum R} (server : nat -> payload -> response R)
    (clock : nat -> Q) (market_data : gmap string (snapshot R)) (start_time end_time : Z)
    (assets : list string) :
  forall (all_data : gmap string (symbol_record R)) (w : world),
  (forall c r, all_data !! c = Some r -> (rec_stats r = None <-> rec_history r = [])) ->
  let '(m, _) := main_loop server clock market_data start_time end_time assets all_data w in
  (forall c, is_Some (m !! c) <-> In c assets \/ is_Some (all_data !! c)) /\
  (forall c r, m !! c = Some r -> (rec_stats r = None <-> rec_history r = [])).
Proof.
  induction assets as [|coin assets IH]; intros all_data w Hinv; simpl.
  - split; [|exact Hinv]. intros c. tauto.
  - pose proof (fetch_coin_data_key server clock coin start_time end_time w) as Hf.
    destruct (fetch_coin_data server clock coin start_time end_time w)
      as [[key data] w1].
    destruct Hf as [-> Hd].
    set (market := match market_data !! coin with Some m => m | None => zero_snapshot end).
    set (all_data' := <[coin := mkRecord (history data) (cstats data) market]> all_data).
    assert (Hinv' : forall c r, all_data' !! c = Some r ->
                      (rec_stats r = None <-> rec_history r = [])).
    { intros c r Hc. unfold all_data' in Hc.
      destruct (decide (c = coin)) as [->|Hne].
      - rewrite lookup_insert_eq in Hc. injection Hc as <-. exact Hd.
      - rewrite lookup_insert_ne in Hc by congruence. exact (Hinv c r Hc). }
    specialize (IH all_data' (sleep (3 # 10) w1) Hinv').
    destruct (main_loop server clock market_data start_time end_time assets all_data'
                (sleep (3 # 10) w1)) as [m w'].
    destruct IH as [Hdom Hrec]. split; [|exact Hrec].
    intros c. rewrite Hdom. unfold all_data'.
    destruct (decide (c = coin)) as [->|Hne].
    + rewrite lookup_insert_eq. split; [intros _; left; left; reflexivity|intros _; right; eexists; reflexivity].
    + rewrite lookup_insert_ne by congruence. split.
      * intros [Hin|Hs]; [left; right; exact Hin|right; exact Hs].
      * intros [[Heq|Hin]|Hs]; [congruence|left; exact Hin|right; exact Hs].
Qed.

(** [b] is a later state of the same run as [a]: its trace extends
    that of [a], and no fewer requests were sent or clock readings
    taken. *)
Definition world_le (a b : world) : Prop :=
  trace a `prefix_of` trace b /\ (ncalls a <= ncalls b)%nat /\ (nclock a <= nclock b)%nat.

Lemma world_le_refl (w : world) : world_le w w.
Proof. split; [reflexivity|lia]. Qed.

Lemma world_le_trans (a b c : world) : world_le a b -> world_le b c -> world_le a c.
Proof.
  intros (Hab & Hab1 & Hab2) (Hbc & Hbc1 & Hbc2).
  split; [etransitivity; eassumption|lia].
Qed.

Lemma world_le_sleep (q : Q) (w : world) : world_le w (sleep q w).
Proof. split; [apply prefix_app_r; reflexivity|simpl; lia]. Qed.

Lemma retry_loop_le {R} (server : nat -> payload -> response R) (it : nat) (p : payload) :
  forall left retry acc w, world_le w (snd (retry_loop server it p retry left acc w)).
Proof.
  induction left as [|left IH]; intros retry acc w; cbn [retry_loop].
  - apply world_le_refl.
  - assert (Hp : world_le w (mkWorld (trace w ++ [Post it p]) (S (ncalls w)) (nclock w))).
    { split; [apply prefix_app_r; reflexivity|simpl; lia]. }
    unfold post.
    destruct (attempt (server (ncalls w) p) acc) as [|acc'|acc' next|acc']; cbn [snd].
    + eapply world_le_trans; [exact Hp|].
      eapply world_le_trans; [apply world_le_sleep|apply IH].
    + exact Hp.
    + exact Hp.
    + destruct (retry =? max_retries - 1)%nat; [exact Hp|].
      eapply world_le_trans; [exact Hp|].
      eapply world_le_trans; [apply world_le_sleep|apply IH].
Qed.

Lemma page_loop_le {R} (server : nat -> payload -> response R) (coin : string)
    (end_time : option Z) :
  forall left it cur acc w, world_le w (snd (page_loop server coin end_time it left cur acc w)).
Proof.
  induction left as [|left IH]; intros it cur acc w; cbn [page_loop].
  - apply world_le_refl.
  - pose proof (retry_loop_le server it (make_payload coin cur end_time) max_retries 0 acc w) as Hr.
    destruct (retry_loop server it (make_payload coin cur end_time) 0 max_retries acc w)
      as [[[|next|] acc'] w']; cbn [snd] in Hr |- *.
    + exact Hr.
    + eapply world_le_trans; [exact Hr|apply IH].
    + exact Hr.
Qed.

(** What [fetch_coin_data] keeps of a download: nothing when the
    download gave no records or [calculate_stats] raised on them,
    otherwise the records and their stats. *)
Lemma fetch_coin_data_record {R} `{PyNum R} (server : nat -> payload -> response R)
    (clock : nat -> Q) (coin : string) (start_time end_time : Z) (w : world) :
  let '(hist, w1) := fetch_funding_history server coin start_time (Some end_time) w in
  let '((key, data), w2) := fetch_coin_data server clock coin start_time end_time w in
  key = coin /\ world_le w w1 /\ world_le w1 w2 /\
  ((hist = [] \/ calculate_stats hist (clock (nclock w1)) = Raises) ->
     history data = [] /\ cstats data = None) /\
  (forall s, hist <> [] -> calculate_stats hist (clock (nclock w1)) = Returns s ->
     history data = hist /\ cstats data = s).
Proof.
  pose proof (page_loop_le server coin (Some end_time) max_iterations 0 start_time [] w) as Hle.
  change (page_loop server coin (Some end_time) 0 max_iterations start_time [] w)
    with (fetch_funding_history server coin start_time (Some end_time) w) in Hle.
  unfold fetch_coin_data.
  destruct (fetch_funding_history server coin start_time (Some end_time) w) as [hist w1].
  cbn [snd] in Hle.
  destruct hist as [|d ds].
  - split; [reflexivity|]. split; [exact Hle|]. split; [apply world_le_refl|].
    split; [intros _; split; reflexivity|]. intros s Hne. contradiction.
  - unfold calculate_stats_io, read_clock.
    assert (Hc : world_le w1 (mkWorld (trace w1) (ncalls w1) (S (nclock w1)))).
    { split; [reflexivity|simpl; lia]. }
    destruct (calculate_stats (d :: ds) (clock (nclock w1))) as [s|] eqn:E.
    + split; [reflexivity|]. split; [exact Hle|]. split; [exact Hc|].
      split; [intros [Hn|Hn]; discriminate|].
      intros s' _ Hs. injection Hs as <-. split; reflexivity.
    + split; [reflexivity|]. split; [exact Hle|]. split; [exact Hc|].
      split; [intros _; split; reflexivity|]. intros s' _ Hs. discriminate.
Qed.

(** The record [r] of coin [c] in a state [w_to] of a run started in
    [w_from] comes from a download of [c] made in that run (from a state
    [wc]): it is empty with no stats when the download gave nothing or
    [calculate_stats] raised, and holds the records and their stats
    otherwise. *)
Definition download_record {R} `{PyNum R} (server : nat -> payload -> response R)
    (clock : nat -> Q) (start_time end_time : Z) (w_from w_to : world)
    (c : string) (r : symbol_record R) : Prop :=
  exists wc, world_le w_from wc /\
    let '(hist, w1) := fetch_funding_history server c start_time (Some end_time) wc in
    world_le w1 w_to /\
    ((hist = [] \/ calculate_stats hist (clock (nclock w1)) = Raises) ->
       rec_history r = [] /\ rec_stats r = None) /\
    (forall s, hist <> [] -> calculate_stats hist (clock (nclock w1)) = Returns s ->
       rec_history r = hist /\ rec_stats r = s).

Lemma download_record_later {R} `{PyNum R} server clock start_time end_time w_from a b c
    (r : symbol_record R) :
  download_record server clock start_time end_time w_from a c r -> world_le a b ->
  download_record server clock start_time end_time w_from b c r.
Proof.
  intros (wc & Hwc & Hd) Hab. exists wc. split; [exact Hwc|].
  destruct (fetch_funding_history server c start_time (Some end_time) wc) as [hist w1].
  destruct Hd as (Hle & Hd). split; [eapply world_le_trans; eassumption|exact Hd].
Qed.

Lemma main_loop_downloads {R} `{PyNum R} (server : nat -> payload -> response R)
    (clock : nat -> Q) (market_data : gmap string (snapshot R)) (start_time end_time : Z)
    (w0 : world) (assets : list string) :
  forall (all_data : gmap string (symbol_record R)) (w : world),
  world_le w0 w ->
  (forall c r, all_data !! c = Some r ->
     download_record server clock start_time end_time w0 w c r) ->
  let '(m, w') := main_loop server clock market_data start_time end_time assets all_data w in
  forall c r, m !! c = Some r -> download_record server clock start_time end_time w0 w' c r.
Proof.
  induction assets as [|coin assets IH]; intros all_data w Hw0 Hinv; cbn [main_loop].
  - exact Hinv.
  - pose proof (fetch_coin_data_record server clock coin start_time end_time w) as Hf.
    destruct (fetch_coin_data server clock coin start_time end_time w) as [[key data] w2].
    set (market := match market_data !! coin with Some m => m | None => zero_snapshot end).
    assert (Hnew : forall wt, world_le w2 wt ->
              download_record server clock start_time end_time w0 wt coin
                (mkRecord (history data) (cstats data) market)).
    { intros wt Hwt. exists w. split; [exact Hw0|].
      destruct (fetch_funding_history server coin start_time (Some end_time) w) as [hist w1].
      destruct Hf as (_ & _ & H12 & Hfail & Hok).
      split; [eapply world_le_trans; eassumption|]. split; [exact Hfail|exact Hok]. }
    assert (Hww2 : world_le w w2 /\ key = coin).
    { destruct (fetch_funding_history server coin start_time (Some end_time) w) as [hist w1].
      destruct Hf as (Hk & H01 & H12 & _). split; [eapply world_le_trans; eassumption|exact Hk]. }
    destruct Hww2 as [Hww2 ->].
    assert (Hws : world_le w (sleep (3 # 10) w2)).
    { eapply world_le_trans; [exact Hww2|apply world_le_sleep]. }
    apply IH.
    + eapply world_le_trans; eassumption.
    + intros c r Hc. destruct (decide (c = coin)) as [->|Hne].
      * rewrite lookup_insert_eq in Hc. injection Hc as <-. apply Hnew, world_le_sleep.
      * rewrite lookup_insert_ne in Hc by congruence.
        eapply download_record_later; [exact (Hinv c r Hc)|exact Hws].
Qed.

(** C1: after a run, the mapping has a record for exactly the symbols
    of the combined catalog list (primary then extended-market), one per
    symbol (it is a map); every record whose stats are [None] has an
    empty history and every record with an empty history has [None]
    stats.  Each record comes from a download of its symbol made during
    the run (from a state [wc] between the start and the end of the
    run, with the run's [start_time] and [end_time]): when that download
    gave nothing or [calculate_stats] raised on what it gave, the record
    has an empty history and [None] stats; otherwise it holds the
    downloaded records and their stats.  [run] is total: no symbol's
    failure stops the loop. *)
Theorem run_coverage {R} `{PyNum R} (server : nat -> payload -> response R)
    (clock : nat -> Q) (thirty_days_earlier : Q -> Q) (include_main_perp : bool)
    (main_resp hip3_resp : cat_response R) (w : world) :
  let '(main_assets, hip3_assets, _) :=
    get_all_perp_assets include_main_perp main_resp hip3_resp in
  let end_time := py_int (clock (nclock w)) in
  let start_time := py_int (thirty_days_earlier (clock (S (nclock w)))) in
  let '(m, w') := run server clock thirty_days_earlier include_main_perp main_resp hip3_resp w in
  (forall c, is_Some (m !! c) <-> In c (main_assets ++ hip3_assets)) /\
  (forall c r, m !! c = Some r -> (rec_stats r = None <-> rec_history r = [])) /\
  (forall c r, m !! c = Some r ->
     exists wc, world_le w wc /\
       let '(hist, w1) := fetch_funding_history server c start_time (Some end_time) wc in
       world_le w1 w' /\
       ((hist = [] \/ calculate_stats hist (clock (nclock w1)) = Raises) ->
          rec_history r = [] /\ rec_stats r = None) /\
       (forall s, hist <> [] -> calculate_stats hist (clock (nclock w1)) = Returns s ->
          rec_history r = hist /\ rec_stats r = s)).
Proof.
  unfold run.
  destruct (get_all_perp_assets include_main_perp main_resp hip3_resp)
    as [[main_assets hip3_assets] market_data].
  unfold read_clock. cbn [nclock ncalls trace].
  set (w2 := mkWorld (trace w) (ncalls w) (S (S (nclock w)))).
  set (st := py_int (thirty_days_earlier (clock (S (nclock w))))).
  set (et := py_int (clock (nclock w))).
  assert (Hw2 : world_le w w2) by (split; [reflexivity|simpl; lia]).
  pose proof (main_loop_coverage server clock market_data st et
                (main_assets ++ hip3_assets) ∅ w2) as Hc.
  pose proof (main_loop_downloads server clock market_data st et w
                (main_assets ++ hip3_assets) ∅ w2 Hw2) as Hd.
  destruct (main_loop server clock market_data st et (main_assets ++ hip3_assets) ∅ w2)
    as [m w'].
  destruct Hc as [Hdom Hrec].
  { intros c r Hc. rewrite lookup_empty in Hc. discriminate. }
  split; [|split; [exact Hrec|]].
  - intros c. rewrite Hdom. rewrite lookup_empty. split; [|tauto].
    intros [Hin|[? Hs]]; [exact Hin|discriminate].
  - intros c r Hc. apply (Hd (fun c r Hc => ltac:(rewrite lookup_empty in Hc; discriminate)) c r Hc).
Qed.
(* ------------------------------------------------------------------ *)
(** ** Lemmas: well-formed histories and windowed sums *)

(** A well-formed observation: both fields present and convertible. *)
Definition well_formed {R} (d : observation R) : Prop :=
  is_Some (time d) /\ is_Some (fundingRate d).

Lemma mapM_outcome_raises {A B} (f : A -> outcome B) (l : list A) :
  Exists (fun x => f x = Raises) l -> mapM f l = Raises.
Proof.
  induction 1 as [x l Hx|x l _ IH]; simpl.
  - rewrite Hx. reflexivity.
  - destruct (f x); [|reflexivity]. simpl. rewrite IH. reflexivity.
Qed.

Lemma well_formed_obs {R} (data : list (observation R)) :
  Forall well_formed data -> exists tr, data = map obs_of tr.
Proof.
  induction 1 as [|d ds [[t Ht] [r Hr]] _ [tr ->]].
  - exists []. reflexivity.
  - exists ((t, r) :: tr). destruct d as [t' r']. simpl in *. subst. reflexivity.
Qed.

Lemma well_formed_or_not {R} (data : list (observation R)) :
  Forall well_formed data \/
  Exists (fun d => time d = None \/ fundingRate d = None) data.
Proof.
  induction data as [|[[t|] [r|]] ds [IH|IH]].
  all: try (right; constructor; simpl; tauto).
  all: try (right; apply List.Exists_cons_tl; exact IH).
  - left. constructor.
  - left. constructor; [split; eexists; reflexivity|exact IH].
Qed.

(** [calculate_stats] raises exactly when the history has an
    observation without [time] or without a convertible [fundingRate]. *)
Lemma calculate_stats_raises_iff {R} `{PyNum R} (data : list (observation R)) (now : Q) :
  calculate_stats data now = Raises <->
  Exists (fun d => time d = None \/ fundingRate d = None) data.
Proof.
  split.
  - intros Hr. destruct (well_formed_or_not data) as [Hw|Hx]; [|exact Hx].
    exfalso. destruct (well_formed_obs data Hw) as [tr ->].
    destruct tr as [|p tr]; [discriminate|].
    rewrite calculate_stats_clean in Hr by discriminate. discriminate.
  - intros Hx. destruct data as [|d0 ds] eqn:Ed; [inversion Hx|]. rewrite <- Ed in Hx |- *.
    unfold calculate_stats. rewrite Ed. rewrite <- Ed. unfold sorted_by_time_desc.
    destruct (decide (Exists (fun d => time d = None) data)) as [Ht|Ht].
    + assert (Hk : mapM (fun d => t ← get_time d; mret (t, d)) data = Raises).
      { apply mapM_outcome_raises. eapply Exists_impl; [exact Ht|].
        intros d Hd. simpl. unfold get_time. rewrite Hd. reflexivity. }
      rewrite Hk. reflexivity.
    + assert (Hk : exists keyed, mapM (fun d => t ← get_time d; mret (t, d)) data = Returns keyed).
      { clear Ed Hx d0 ds. induction data as [|d ds IH]; [eexists; reflexivity|].
        destruct (time d) as [t|] eqn:Etd.
        - destruct IH as [k Hk].
          + intros Hds. apply Ht. apply List.Exists_cons_tl. exact Hds.
          + exists ((t, d) :: k). cbn [mapM]. rewrite Hk. unfold get_time. rewrite Etd. reflexivity.
        - exfalso. apply Ht. constructor. exact Etd. }
      assert (Hrate : mapM get_rate data = Raises).
      { apply mapM_outcome_raises.
        apply List.Exists_exists in Hx as (d & Hin & [Hd|Hd]).
        - exfalso. apply Ht. apply List.Exists_exists. exists d. split; assumption.
        - apply List.Exists_exists. exists d. split; [exact Hin|]. unfold get_rate. rewrite Hd. reflexivity. }
      destruct Hk as [keyed Hk]. rewrite Hk. simpl. rewrite Hrate. reflexivity.
Qed.

(** The head of the stable descending sort is the first element, in
    the original order, whose key is maximal. *)
Lemma sort_desc_first {A} (l : list (Z * A)) :
  l <> [] ->
  exists pre p post rest, l = pre ++ p :: post /\
    Forall (fun q => (fst q < fst p)%Z) pre /\
    Forall (fun q => (fst q <= fst p)%Z) post /\
    sort_desc l = p :: rest.
Proof.
  induction l as [|x l IH]; intros Hne; [congruence|].
  destruct l as [|x' l].
  - exists [], x, [], []. repeat split; constructor.
  - destruct IH as (pre & p & post & rest & Hl & Hpre & Hpost & Hs); [discriminate|].
    change (sort_desc (x :: x' :: l)) with (insert_desc x (sort_desc (x' :: l))).
    rewrite Hs. simpl. destruct (Z.leb_spec (fst p) (fst x)).
    + exists [], x, (x' :: l), (p :: rest). split; [reflexivity|]. split; [constructor|].
      split; [|reflexivity].
      rewrite Hl. apply Forall_app. split.
      * eapply List.Forall_impl; [|exact Hpre]. intros q Hq. simpl in Hq. lia.
      * constructor; [lia|]. eapply List.Forall_impl; [|exact Hpost]. intros q Hq. simpl in Hq. lia.
    + exists (x :: pre), p, post, (insert_desc x rest).
      split; [rewrite Hl; reflexivity|]. split; [constructor; [lia|exact Hpre]|].
      split; [exact Hpost|reflexivity].
Qed.

Section QStats.
Local Open Scope Q_scope.

Lemma fold_Qplus_proper (xs : list Q) (a b : Q) :
  a == b -> fold_left Qplus xs a == fold_left Qplus xs b.
Proof.
  revert a b. induction xs as [|x xs IH]; intros a b Hab; simpl; [exact Hab|].
  apply IH. rewrite Hab. reflexivity.
Qed.

Lemma fold_Qplus_perm (xs ys : list Q) :
  Permutation xs ys -> forall a, fold_left Qplus xs a == fold_left Qplus ys a.
Proof.
  induction 1 as [|x xs ys _ IH|x y xs|xs ys zs _ IH1 _ IH2]; intros a; simpl.
  - reflexivity.
  - apply IH.
  - apply fold_Qplus_proper. ring.
  - rewrite IH1. apply IH2.
Qed.

(** With non-negative rates, a wider window sums more. *)
Lemma fold_window_mono (c1 c2 : Q) (l : list (Z * Q)) :
  c2 <= c1 -> Forall (fun p => 0 <= snd p) l ->
  forall a b, a <= b ->
  fold_left Qplus (map snd (List.filter (fun p => Qle_bool c1 (inject_Z (fst p))) l)) a <=
  fold_left Qplus (map snd (List.filter (fun p => Qle_bool c2 (inject_Z (fst p))) l)) b.
Proof.
  intros Hc. induction 1 as [|p l Hp _ IH]; intros a b Hab; simpl; [exact Hab|].
  destruct (Qle_bool c1 (inject_Z (fst p))) eqn:E1.
  - apply Qle_bool_iff in E1.
    assert (E2 : Qle_bool c2 (inject_Z (fst p)) = true) by (apply Qle_bool_iff; lra).
    rewrite E2. simpl. apply IH. lra.
  - destruct (Qle_bool c2 (inject_Z (fst p))); simpl; apply IH; lra.
Qed.

Lemma cutoff_mono (now : Q) (h1 h2 : Z) :
  (h1 <= h2)%Z -> cutoff_of now h2 <= cutoff_of now h1.
Proof.
  intros Hh. unfold cutoff_of.
  assert (inject_Z (h1 * 60 * 60 * 1000) <= inject_Z (h2 * 60 * 60 * 1000)).
  { rewrite <- Zle_Qle. lia. }
  lra.
Qed.

End QStats.

(* ------------------------------------------------------------------ *)
(** ** Lemmas: requests and cursors of the download loop *)

Section FetchMore.
Context {R : Type}.
Implicit Types (server : nat -> payload -> response R) (acc data : list (observation R)).

(** Every request of the retry loop is the page's payload. *)
Lemma retry_loop_posts server it p : forall left retry acc w,
  let '(_, _, w') := retry_loop server it p retry left acc w in
  exists new, trace w' = trace w ++ new /\
    (forall i q, In (Post i q) new -> i = it /\ q = p).
Proof.
  induction left as [|left IH]; intros retry acc w.
  - exists []. rewrite app_nil_r. split; [reflexivity|intros _ _ []].
  - cbn [retry_loop]. unfold post.
    destruct (attempt (server (ncalls w) p) acc) as [|acc'|acc' next|acc'].
    4: destruct (retry =? max_retries - 1)%nat.
    all: lazymatch goal with
         | |- context [retry_loop _ _ _ ?r _ ?a (sleep ?s ?w0)] =>
           specialize (IH r a (sleep s w0));
           destruct (retry_loop server it p r left a (sleep s w0)) as [[e a'] w'];
           destruct IH as (new & Ht & Hp);
           exists (Post it p :: Sleep s :: new);
           split; [rewrite Ht; simpl; rewrite <- !app_assoc; reflexivity|];
           intros i q [Hq|[Hq|Hq]]; [injection Hq as -> ->; split; reflexivity
                                     |discriminate|exact (Hp i q Hq)]
         | _ => exists [Post it p]; split; [reflexivity|];
                intros i q [Hq|[]]; injection Hq as -> ->; split; reflexivity
         end.
Qed.

(** Every request of the page loop carries the coin and the end time;
    those of its first page carry the starting cursor. *)
Lemma page_loop_posts server coin end_time : forall left it cur acc w,
  let '(_, w') := page_loop server coin end_time it left cur acc w in
  exists new, trace w' = trace w ++ new /\
    (forall i q, In (Post i q) new ->
       (it <= i)%nat /\ (exists c, q = make_payload coin c end_time) /\
       (i = it -> q = make_payload coin cur end_time)).
Proof.
  induction left as [|left IH]; intros it cur acc w.
  - exists []. rewrite app_nil_r. split; [reflexivity|intros _ _ []].
  - cbn [page_loop].
    pose proof (retry_loop_posts server it (make_payload coin cur end_time)
                  max_retries 0 acc w) as Hr.
    destruct (retry_loop server it (make_payload coin cur end_time) 0 max_retries acc w)
      as [[e acc'] w1].
    destruct Hr as (new1 & Ht1 & Hp1).
    assert (H1 : forall i q, In (Post i q) new1 ->
       (it <= i)%nat /\ (exists c, q = make_payload coin c end_time) /\
       (i = it -> q = make_payload coin cur end_time)).
    { intros i q Hin. destruct (Hp1 i q Hin) as [-> ->].
      split; [lia|]. split; [eexists; reflexivity|intros _; reflexivity]. }
    destruct e as [|next|].
    2: { specialize (IH (S it) next acc' w1).
         destruct (page_loop server coin end_time (S it) left next acc' w1) as [res w'].
         destruct IH as (new2 & Ht2 & Hp2).
         exists (new1 ++ new2). split; [rewrite Ht2, Ht1, app_assoc; reflexivity|].
         intros i q Hin. apply in_app_or in Hin as [Hin|Hin]; [exact (H1 i q Hin)|].
         destruct (Hp2 i q Hin) as (Hi & Hc & _).
         split; [lia|]. split; [exact Hc|intros ->; lia]. }
    all: exists new1; split; [exact Ht1|exact H1].
Qed.

(** A full page with a record whose [time] is missing: the page is
    appended, then [max(...)] raises. *)
Lemma attempt_bad_full acc data :
  (500 <= length data)%nat -> Exists (fun d => time d = None) data ->
  attempt (HttpResponse 200 (BodyList data)) acc = AExcept (acc ++ data).
Proof.
  intros Hlen Hx. unfold attempt. cbn -[max_time].
  destruct data as [|d ds]; [simpl in Hlen; lia|].
  rewrite (proj2 (Nat.leb_gt (length (d :: ds)) 499) ltac:(lia)).
  unfold max_time. rewrite (mapM_outcome_raises get_time).
  - reflexivity.
  - eapply Exists_impl; [exact Hx|]. intros x Hd. unfold get_time. rewrite Hd. reflexivity.
Qed.

(** A full, well-formed page: the cursor moves past its latest time. *)
Lemma attempt_full acc data t :
  (500 <= length data)%nat -> max_time data = Returns t ->
  attempt (HttpResponse 200 (BodyList data)) acc = ABreak (acc ++ data) (t + 1).
Proof.
  intros Hlen Ht. unfold attempt. cbn -[max_time].
  destruct data as [|d ds]; [simpl in Hlen; lia|].
  rewrite (proj2 (Nat.leb_gt (length (d :: ds)) 499) ltac:(lia)).
  rewrite Ht. reflexivity.
Qed.

Lemma max_time_ok data :
  data <> [] -> Forall (fun d => is_Some (time d)) data ->
  exists t, max_time data = Returns t.
Proof.
  intros Hne Hall. destruct (mapM_get_time_ok data Hall) as [ts [Hm Hl]].
  unfold max_time. rewrite Hm. cbn [mbind outcome_bind].
  destruct ts as [|t ts']; [destruct data; [congruence|simpl in Hl; lia]|].
  eexists. reflexivity.
Qed.

(** Full pages from the [i]-th request on: one request per page, and
    the cursor of each page is one past the latest time of the page
    before it. *)
Lemma page_loop_full_trace server coin end_time (pg : nat -> list (observation R)) :
  (forall i q, server i q = HttpResponse 200 (BodyList (pg i))) ->
  (forall i, (500 <= length (pg i))%nat /\ Forall (fun d => is_Some (time d)) (pg i)) ->
  forall left it cur acc w,
  let '(_, w') := page_loop server coin end_time it left cur acc w in
  exists new, trace w' = trace w ++ new /\ length new = left /\
    forall k, (k < left)%nat -> exists q, nth_error new k = Some (Post (it + k) q) /\
      p_coin q = coin /\
      (k = 0%nat -> p_startTime q = cur) /\
      (forall j, k = S j -> max_time (pg (ncalls w + j)%nat) = Returns (p_startTime q - 1)%Z).
Proof.
  intros Hsrv Hpg. induction left as [|left IH]; intros it cur acc w.
  - exists []. rewrite app_nil_r. split; [reflexivity|]. split; [reflexivity|]. intros k Hk. lia.
  - cbn [page_loop]. unfold max_retries. cbn [retry_loop]. unfold post. rewrite Hsrv.
    destruct (Hpg (ncalls w)) as [Hlen Hall].
    destruct (max_time_ok (pg (ncalls w))) as [t Ht];
      [intros E; rewrite E in Hlen; simpl in Hlen; lia|exact Hall|].
    rewrite (attempt_full acc _ t Hlen Ht).
    match goal with
    | |- context [page_loop server coin end_time (S it) left (t + 1)%Z ?a ?w1] =>
      specialize (IH (S it) (t + 1)%Z a w1);
      destruct (page_loop server coin end_time (S it) left (t + 1)%Z a w1) as [res w']
    end.
    destruct IH as (new & Ht' & Hl & Hk).
    exists (Post it (make_payload coin cur end_time) :: new).
    split; [rewrite Ht'; simpl; rewrite <- app_assoc; reflexivity|].
    split; [simpl; lia|].
    intros k Hk'. destruct k as [|k].
    + eexists. split; [rewrite Nat.add_0_r; reflexivity|].
      split; [reflexivity|]. split; [intros _; reflexivity|intros j E; discriminate].
    + destruct (Hk k ltac:(lia)) as (q & Hn & Hc & H0 & HS).
      exists q. split; [cbn [nth_error]; rewrite Hn; f_equal; f_equal; lia|].
      split; [exact Hc|]. split; [intros E; discriminate|].
      intros j E. injection E as ->. destruct j as [|j].
      * rewrite Nat.add_0_r. rewrite (H0 eq_refl). rewrite Ht. f_equal. lia.
      * rewrite <- (HS j eq_refl). cbn [ncalls]. f_equal. f_equal. lia.
Qed.

End FetchMore.

(** The pause after a failed attempt number [retry] (from 0): a 429
    sleeps [(retry + 1) * 2] seconds; an exception sleeps one second,
    except after the last attempt. *)
Definition failure_wait {R} (retry : nat) (r : response R) : list event :=
  match r with
  | HttpResponse _ _ => [Sleep (inject_Z (Z.of_nat ((retry + 1) * 2)))]
  | TransportError => if (retry =? max_retries - 1)%nat then [] else [Sleep 1]
  end.

(* ------------------------------------------------------------------ *)
(** ** Lemmas: sorting and the report *)

Lemma StronglySorted_app_inv {A} (Rel : A -> A -> Prop) (l1 l2 : list A) :
  StronglySorted Rel (l1 ++ l2) ->
  StronglySorted Rel l1 /\ StronglySorted Rel l2 /\
  (forall x y, In x l1 -> In y l2 -> Rel x y).
Proof.
  induction l1 as [|a l1 IH]; intros Hs; simpl in Hs.
  - split; [constructor|]. split; [exact Hs|intros x y []].
  - apply StronglySorted_inv in Hs as [Hs Ha].
    destruct (IH Hs) as (H1 & H2 & H12).
    split; [constructor; [exact H1|]|split; [exact H2|]].
    + apply List.Forall_forall. intros x Hx. apply (proj1 (List.Forall_forall _ _) Ha).
      apply in_or_app. left. exact Hx.
    + intros x y [<-|Hx] Hy; [|exact (H12 x y Hx Hy)].
      apply (proj1 (List.Forall_forall _ _) Ha). apply in_or_app. right. exact Hy.
Qed.

Lemma insert_asc_perm {A} (x : Z * A) l : Permutation (insert_asc x l) (x :: l).
Proof.
  induction l as [|y l IH]; simpl; [reflexivity|].
  destruct (fst x <=? fst y)%Z; [reflexivity|].
  rewrite IH. apply perm_swap.
Qed.

Lemma sort_asc_perm {A} (l : list (Z * A)) : Permutation (sort_asc l) l.
Proof.
  induction l as [|x l IH]; simpl; [reflexivity|].
  rewrite insert_asc_perm, IH. reflexivity.
Qed.

Lemma insert_asc_map {A B} (f : Z * A -> B) (x : Z * A) l :
  insert_asc (fst x, f x) (map (fun p => (fst p, f p)) l) =
  map (fun p => (fst p, f p)) (insert_asc x l).
Proof.
  induction l as [|y l IH]; simpl; [reflexivity|].
  destruct (fst x <=? fst y)%Z; simpl; [reflexivity|]. now rewrite IH.
Qed.

Lemma sort_asc_map {A B} (f : Z * A -> B) (l : list (Z * A)) :
  sort_asc (map (fun p => (fst p, f p)) l) = map (fun p => (fst p, f p)) (sort_asc l).
Proof.
  induction l as [|x l IH]; simpl; [reflexivity|].
  rewrite IH. apply (insert_asc_map f x).
Qed.

Definition time_le {A} (x y : Z * A) : Prop := (fst x <= fst y)%Z.

Lemma insert_asc_sorted {A} (x : Z * A) l :
  Sorted time_le l -> Sorted time_le (insert_asc x l).
Proof.
  induction 1 as [|y l Hl IH Hy]; simpl.
  - repeat constructor.
  - destruct (Z.leb_spec (fst x) (fst y)).
    + constructor; [constructor; assumption|constructor; exact H].
    + constructor; [exact IH|].
      destruct l as [|z l]; simpl.
      * constructor. unfold time_le. lia.
      * inversion Hy as [|? ? Hyz]; subst. unfold time_le in Hyz.
        destruct (fst x <=? fst z)%Z; constructor; unfold time_le; lia.
Qed.

Lemma sort_asc_sorted {A} (l : list (Z * A)) : Sorted time_le (sort_asc l).
Proof.
  induction l as [|x l IH]; simpl; [constructor|]. apply insert_asc_sorted, IH.
Qed.

Lemma last500_map {A B} (f : A -> B) (l : list A) :
  last500 (map f l) = map f (last500 l).
Proof. unfold last500. rewrite length_map, skipn_map. reflexivity. Qed.

Lemma length_last500 {A} (l : list A) : length (last500 l) = Nat.min 500 (length l).
Proof. unfold last500. rewrite length_skipn. lia. Qed.

Section ReportProofs.
Context {R : Type} `{PyNum R} `{PyScale R}.

Lemma mapM_chart_points (l : list (Z * R)) :
  mapM (fun p => r ← get_rate (snd p); mret (fst p, py_mul r py_hundred)) (map keyed_obs l) =
  Returns (map (fun p => (fst p, py_mul (snd p) py_hundred)) l).
Proof.
  induction l as [|p l IH]; [reflexivity|]. simpl. rewrite IH. reflexivity.
Qed.

(** On a well-formed history, [chart_points] scales the rates of the
    last 500 observations of the ascending sort. *)
Lemma chart_points_clean (tr : list (Z * R)) :
  chart_points (map obs_of tr) =
  Returns (map (fun p => (fst p, py_mul (snd p) py_hundred)) (last500 (sort_asc tr))).
Proof.
  unfold chart_points. rewrite mapM_keyed. cbn [mbind outcome_bind].
  assert (Hs : sort_asc (map keyed_obs tr) = map keyed_obs (sort_asc tr))
    by apply (sort_asc_map obs_of tr).
  rewrite Hs, last500_map. apply mapM_chart_points.
Qed.

Lemma chart_data_ok (items : list (string * symbol_record R)) :
  Forall (fun it => Forall well_formed (rec_history (snd it))) items ->
  forall acc, exists cd, chart_data items acc = Returns cd /\
    forall c, is_Some (cd !! c) <->
              is_Some (acc !! c) \/ exists r, In (c, r) items /\ rec_history r <> [].
Proof.
  induction 1 as [|[coin data] items Hwf _ IH]; intros acc; simpl.
  - eexists. split; [reflexivity|]. intros c. split; [tauto|].
    intros [Hc|(r & [] & _)]. exact Hc.
  - simpl in Hwf. destruct (rec_history data) as [|d ds] eqn:Eh.
    + destruct (IH acc) as (cd & Hcd & Hdom). exists cd. split; [exact Hcd|].
      intros c. rewrite Hdom. split.
      * intros [Hc|(r & Hr & Hne)]; [left; exact Hc|right; exists r; split; [right; exact Hr|exact Hne]].
      * intros [Hc|(r & [Hr|Hr] & Hne)]; [left; exact Hc| |right; exists r; split; assumption].
        injection Hr as -> ->. congruence.
    + destruct (well_formed_obs _ Hwf) as [tr Etr].
      rewrite Etr, chart_points_clean. cbn [mbind outcome_bind].
      destruct (IH (<[coin := map (fun p => (fst p, py_mul (snd p) py_hundred))
                                (last500 (sort_asc tr))]> acc)) as (cd & Hcd & Hdom).
      exists cd. split; [exact Hcd|]. intros c. rewrite Hdom.
      destruct (decide (c = coin)) as [->|Hne].
      * rewrite lookup_insert_eq. split; [intros _; right; exists data; split; [left; reflexivity|congruence]|].
        intros _. left. eexists. reflexivity.
      * rewrite lookup_insert_ne by congruence. split.
        -- intros [Hc|(r & Hr & Hn)]; [left; exact Hc|right; exists r; split; [right; exact Hr|exact Hn]].
        -- intros [Hc|(r & [Hr|Hr] & Hn)]; [left; exact Hc| |right; exists r; split; assumption].
           injection Hr as -> ->. congruence.
Qed.

End ReportProofs.

Section TopProofs.
Context {R : Type} `{PyNum R} `{PyScale R}.

Lemma insert_top_perm (x : string * symbol_record R) l :
  Permutation (insert_top x l) (x :: l).
Proof.
  induction l as [|y l IH]; simpl; [reflexivity|].
  destruct (py_lt (top_key x) (top_key y)); [|reflexivity].
  rewrite IH. apply perm_swap.
Qed.

Lemma sort_top_perm (l : list (string * symbol_record R)) : Permutation (sort_top l) l.
Proof.
  induction l as [|x l IH]; simpl; [reflexivity|].
  rewrite insert_top_perm, IH. reflexivity.
Qed.

End TopProofs.

(** In exact arithmetic the keys of [sort_top] do not increase. *)
Definition key_ge (x y : string * symbol_record Q) : Prop := (top_key y <= top_key x)%Q.

Lemma insert_top_sorted (x : string * symbol_record Q) l :
  Sorted key_ge l -> Sorted key_ge (insert_top x l).
Proof.
  induction 1 as [|y l Hl IH Hy]; simpl.
  - repeat constructor.
  - unfold py_lt; simpl. destruct (Qle_bool (top_key y) (top_key x)) eqn:E; simpl.
    + apply Qle_bool_iff in E. constructor; [constructor; assumption|constructor; exact E].
    + assert (E' : (top_key x < top_key y)%Q).
      { apply Qnot_le_lt. intros C. apply Qle_bool_iff in C. congruence. }
      constructor; [exact IH|].
      destruct l as [|z l]; simpl.
      * constructor. unfold key_ge. lra.
      * inversion Hy as [|? ? Hyz]; subst. unfold key_ge in Hyz.
        destruct (Qle_bool (top_key z) (top_key x)); simpl; constructor; unfold key_ge; lra.
Qed.

Lemma sort_top_sorted (l : list (string * symbol_record Q)) : Sorted key_ge (sort_top l).
Proof.
  induction l as [|x l IH]; simpl; [constructor|]. apply insert_top_sorted, IH.
Qed.

Lemma key_ge_trans (x y z : string * symbol_record Q) : key_ge x y -> key_ge y z -> key_ge x z.
Proof. unfold key_ge. lra. Qed.

Lemma time_le_trans {A} (x y z : Z * A) : time_le x y -> time_le y z -> time_le x z.
Proof. unfold time_le. lia. Qed.

(* ------------------------------------------------------------------ *)
(** ** Lemmas: the catalog with well-formed entries *)

(** A universe of names and contexts whose snapshots all convert: the
    list is the names up to the shorter of the two ([zip]), every
    listed name has a snapshot, and (distinct names) each name gets the
    snapshot of its own context. *)
Lemma universe_loop_zip {R} (names : list string) (ctxs : list (asset_ctx R)) :
  Forall (fun ctx => exists s, snapshot_of ctx = Returns s) ctxs ->
  forall assets market,
  let '(assets', market') := universe_loop (combine (map Some names) ctxs) assets market in
  assets' = assets ++ firstn (length ctxs) names /\
  (forall c, ~ In c (firstn (length ctxs) names) -> market' !! c = market !! c) /\
  (forall c, is_Some (market' !! c) <-> is_Some (market !! c) \/ In c (firstn (length ctxs) names)) /\
  (NoDup names -> forall i c ctx s, names !! i = Some c -> ctxs !! i = Some ctx ->
     snapshot_of ctx = Returns s -> market' !! c = Some s).
Proof.
  revert ctxs. induction names as [|n names IH]; intros ctxs Hok assets market.
  - simpl. rewrite firstn_nil, app_nil_r. split; [reflexivity|]. split; [reflexivity|].
    split; [intros c; split; [intros Hc; left; exact Hc|intros [Hc|[]]; exact Hc]|].
    intros _ i c ctx s Hi. discriminate.
  - destruct ctxs as [|ctx ctxs].
    + simpl. rewrite app_nil_r. split; [reflexivity|]. split; [reflexivity|].
      split; [intros c; split; [intros Hc; left; exact Hc|intros [Hc|[]]; exact Hc]|].
      intros _ i c ctx s _ Hi. discriminate.
    + inversion Hok as [|? ? [s0 Hs0] Hok']; subst.
      cbn [map combine universe_loop]. rewrite Hs0.
      specialize (IH ctxs Hok' (assets ++ [n]) (<[n := s0]> market)).
      destruct (universe_loop (combine (map Some names) ctxs) (assets ++ [n])
                  (<[n := s0]> market)) as [assets' market'].
      destruct IH as (Ha & Hkeep & Hdom & Hlook).
      cbn [length firstn].
      split; [rewrite Ha, <- app_assoc; reflexivity|].
      split; [|split].
      * intros c Hc. rewrite Hkeep by (intros Hin; apply Hc; right; exact Hin).
        rewrite lookup_insert_ne; [reflexivity|]. intros ->. apply Hc. left. reflexivity.
      * intros c. rewrite Hdom. destruct (decide (c = n)) as [->|Hne].
        -- rewrite lookup_insert_eq. split; [intros _; right; left; reflexivity|intros _; left; eexists; reflexivity].
        -- rewrite lookup_insert_ne by congruence. split.
           ++ intros [Hc|Hc]; [left; exact Hc|right; right; exact Hc].
           ++ intros [Hc|[Hc|Hc]]; [left; exact Hc|congruence|right; exact Hc].
      * intros Hnd i c ctx' s Hi Hc Hs. inversion Hnd as [|? ? Hn Hnd']; subst.
        destruct i as [|i].
        -- simpl in Hi, Hc. injection Hi as <-. injection Hc as <-. rewrite Hs0 in Hs.
           injection Hs as <-. rewrite Hkeep.
           ++ apply lookup_insert_eq.
           ++ intros Hin. apply Hn. apply list_elem_of_In. rewrite <- (firstn_skipn (length ctxs) names).
              apply in_or_app. left. exact Hin.
        -- exact (Hlook Hnd' i c ctx' s Hi Hc Hs).
Qed.

(* ------------------------------------------------------------------ *)
(** ** Lemmas: the records collected by [main] *)

(** What [fetch_coin_data] hands back: the coin as key, a history of
    well-formed observations, stats exactly for a non-empty history,
    and the requests of the download (reading the clock sends none). *)
Lemma fetch_coin_data_shape {R} `{PyNum R} (server : nat -> payload -> response R)
    (clock : nat -> Q) (coin : string) (start_time end_time : Z) (w : world) :
  let '((key, data), w') := fetch_coin_data server clock coin start_time end_time w in
  key = coin /\ Forall well_formed (history data) /\
  (cstats data = None <-> history data = []) /\
  trace w' = trace (snd (fetch_funding_history server coin start_time (Some end_time) w)).
Proof.
  unfold fetch_coin_data.
  destruct (fetch_funding_history server coin start_time (Some end_time) w) as [hist w1].
  destruct hist as [|d ds]; [simpl; split; [reflexivity|]; split; [constructor|tauto]|].
  unfold calculate_stats_io, read_clock. cbn [fst snd trace].
  destruct (calculate_stats (d :: ds) (clock (nclock w1))) as [s|] eqn:E.
  - split; [reflexivity|]. split; [|split; [|reflexivity]].
    + destruct (well_formed_or_not (d :: ds)) as [Hw|Hx]; [exact Hw|].
      apply calculate_stats_raises_iff with (now := clock (nclock w1)) in Hx. congruence.
    + cbn [cstats history]. split; intros Hc; [|discriminate].
      subst s. exfalso. apply (calculate_stats_not_none (d :: ds) (clock (nclock w1)));
        [discriminate|exact E].
  - simpl. split; [reflexivity|]. split; [constructor|]. split; [tauto|reflexivity].
Qed.

(** The market value [main] attaches to a coin. *)
Definition market_of {R} `{PyNum R} (market_data : gmap string (snapshot R)) (c : string)
    : snapshot R :=
  match market_data !! c with Some m => m | None => zero_snapshot end.

Lemma main_loop_records {R} `{PyNum R} (server : nat -> payload -> response R)
    (clock : nat -> Q) (market_data : gmap string (snapshot R)) (start_time end_time : Z)
    (assets : list string) :
  forall (all_data : gmap string (symbol_record R)) (w : world),
  (forall c r, all_data !! c = Some r -> Forall well_formed (rec_history r)) ->
  let '(m, w') := main_loop server clock market_data start_time end_time assets all_data w in
  (forall c r, m !! c = Some r -> Forall well_formed (rec_history r)) /\
  (forall c, (In c assets \/
              exists r, all_data !! c = Some r /\ rec_market r = market_of market_data c) ->
     exists r, m !! c = Some r /\ rec_market r = market_of market_data c) /\
  exists new, trace w' = trace w ++ new /\
    forall i q, In (Post i q) new ->
      In (p_coin q) assets /\ (i = 0%nat -> p_startTime q = start_time) /\
      p_endTime q = (if (end_time =? 0)%Z then None else Some end_time).
Proof.
  induction assets as [|coin assets IH]; intros all_data w Hwf; simpl.
  - split; [exact Hwf|]. split.
    + intros c [[]|(r & Hr & Hm)]. exists r. split; assumption.
    + exists []. rewrite app_nil_r. split; [reflexivity|intros _ _ []].
  - pose proof (fetch_coin_data_shape server clock coin start_time end_time w) as Hf.
    pose proof (page_loop_posts server coin (Some end_time) max_iterations 0 start_time [] w) as Hp.
    change (page_loop server coin (Some end_time) 0 max_iterations start_time [] w)
      with (fetch_funding_history server coin start_time (Some end_time) w) in Hp.
    destruct (fetch_funding_history server coin start_time (Some end_time) w) as [hist wf].
    destruct Hp as (new1 & Ht1 & Hp1).
    destruct (fetch_coin_data server clock coin start_time end_time w) as [[key data] w1].
    destruct Hf as (-> & Hwd & _ & Htr). cbn [snd] in Htr.
    fold (market_of market_data coin).
    set (all_data' := <[coin := mkRecord (history data) (cstats data) (market_of market_data coin)]>
                        all_data).
    assert (Hwf' : forall c r, all_data' !! c = Some r -> Forall well_formed (rec_history r)).
    { intros c r Hc. unfold all_data' in Hc.
      destruct (decide (c = coin)) as [->|Hne].
      - rewrite lookup_insert_eq in Hc. injection Hc as <-. exact Hwd.
      - rewrite lookup_insert_ne in Hc by congruence. exact (Hwf c r Hc). }
    specialize (IH all_data' (sleep (3 # 10) w1) Hwf').
    destruct (main_loop server clock market_data start_time end_time assets all_data'
                (sleep (3 # 10) w1)) as [m w'].
    destruct IH as (Hm & Hmk & new2 & Ht2 & Hp2).
    split; [exact Hm|]. split.
    + intros c Hc. apply Hmk. destruct (decide (c = coin)) as [->|Hne].
      * right. eexists. split; [unfold all_data'; rewrite lookup_insert_eq; reflexivity|reflexivity].
      * destruct Hc as [[Heq|Hin]|(r & Hr & Hmr)]; [congruence|left; exact Hin|].
        right. exists r. split; [|exact Hmr].
        unfold all_data'. rewrite lookup_insert_ne by congruence. exact Hr.
    + exists (new1 ++ Sleep (3 # 10) :: new2). split.
      * rewrite Ht2. unfold sleep. cbn [trace]. rewrite Htr, Ht1, <- !app_assoc. reflexivity.
      * intros i q Hin. apply in_app_or in Hin as [Hin|[Hin|Hin]].
        -- destruct (Hp1 i q Hin) as (_ & [c ->] & H0).
           split; [left; reflexivity|]. split.
           ++ intros ->. rewrite (H0 eq_refl). reflexivity.
           ++ reflexivity.
        -- discriminate.
        -- destruct (Hp2 i q Hin) as (Hc & H0 & He).
           split; [right; exact Hc|]. split; [exact H0|exact He].
Qed.

(* ------------------------------------------------------------------ *)
(** ** More properties of [calculate_stats] *)


(** [rate8h] is the rate of the first observation, in the order of the
    history, that carries the latest timestamp: the stable sort keeps
    it ahead of later observations with the same time. *)
Theorem calculate_stats_rate8h_first {R} `{PyNum R} (tr : list (Z * R)) (now : Q) :
  tr <> [] ->
  exists pre p post s, tr = pre ++ p :: post /\
    Forall (fun q => (fst q < fst p)%Z) pre /\
    Forall (fun q => (fst q <= fst p)%Z) post /\
    calculate_stats (map obs_of tr) now = Returns (Some s) /\ rate8h s = snd p.
Proof.
  intros Hne. destruct (sort_desc_first tr Hne) as (pre & p & post & rest & Hl & Hpre & Hpost & Hs).
  rewrite calculate_stats_clean by exact Hne. rewrite Hs.
  eexists pre, p, post, _.
  split; [exact Hl|]. split; [exact Hpre|]. split; [exact Hpost|]. split; reflexivity.
Qed.

Lemma calculate_stats_rate8h_first_witness :
  [(5%Z, 1 # 10); (9%Z, 2 # 10); (9%Z, 3 # 10)] <> [] /\
  exists pre p post s, [(5%Z, 1 # 10); (9%Z, 2 # 10); (9%Z, 3 # 10)] = pre ++ p :: post /\
    Forall (fun q => (fst q < fst p)%Z) pre /\
    Forall (fun q => (fst q <= fst p)%Z) post /\
    calculate_stats (map obs_of [(5%Z, 1 # 10); (9%Z, 2 # 10); (9%Z, 3 # 10)]) 100 =
      Returns (Some s) /\ rate8h s = snd p.
Proof.
  split; [discriminate|].
  apply (calculate_stats_rate8h_first [(5%Z, 1 # 10); (9%Z, 2 # 10); (9%Z, 3 # 10)] 100).
  discriminate.
Defined.

(** In exact arithmetic, with non-negative rates the four windowed sums
    grow with the window: [sum1d <= sum3d <= sum7d <= sum30d]. *)
Theorem calculate_stats_windows_nested (tr : list (Z * Q)) (now : Q) (s : stats Q) :
  Forall (fun p => 0 <= snd p)%Q tr ->
  calculate_stats (map obs_of tr) now = Returns (Some s) ->
  (sum1d s <= sum3d s /\ sum3d s <= sum7d s /\ sum7d s <= sum30d s)%Q.
Proof.
  intros Hpos Hc. assert (Hne : tr <> []) by (intros ->; discriminate).
  rewrite calculate_stats_clean in Hc by exact Hne.
  injection Hc as <-. cbn [sum1d sum3d sum7d sum30d].
  assert (Hs : Forall (fun p => 0 <= snd p)%Q (sort_desc tr)).
  { eapply Permutation_Forall; [symmetry; apply sort_desc_perm|exact Hpos]. }
  unfold window_rates, in_window, py_sum. cbn [py_add py_zero Q_PyNum].
  split; [|split]; apply fold_window_mono; try exact Hs; try apply Qle_refl;
    apply cutoff_mono; lia.
Qed.

Lemma calculate_stats_windows_nested_witness :
  Forall (fun p => 0 <= snd p)%Q [(0%Z, 1 # 10); (100000000%Z, 2 # 10); (200000000%Z, 0%Q)] /\
  exists s, calculate_stats (map obs_of [(0%Z, 1 # 10); (100000000%Z, 2 # 10); (200000000%Z, 0%Q)])
              (inject_Z 200000000) = Returns (Some s) /\
  (sum1d s <= sum3d s /\ sum3d s <= sum7d s /\ sum7d s <= sum30d s)%Q.
Proof.
  assert (Hp : Forall (fun p => 0 <= snd p)%Q
                 [(0%Z, 1 # 10); (100000000%Z, 2 # 10); (200000000%Z, 0%Q)]).
  { repeat constructor; apply Qle_bool_iff; reflexivity. }
  split; [exact Hp|].
  eexists. split; [vm_compute; reflexivity|].
  apply (calculate_stats_windows_nested _ (inject_Z 200000000) _ Hp).
  vm_compute. reflexivity.
Defined.

(** In exact arithmetic, when every observation lies within the last
    30 days, [sum30d] is the total of the rates, i.e. [avg * count]. *)
Theorem calculate_stats_sum30d_total (tr : list (Z * Q)) (now : Q) (s : stats Q) :
  Forall (fun p => cutoff_of now 720 <= inject_Z (fst p))%Q tr ->
  calculate_stats (map obs_of tr) now = Returns (Some s) ->
  (sum30d s == avg s * inject_Z (Z.of_nat (count s)))%Q.
Proof.
  intros Hin Hc. assert (Hne : tr <> []) by (intros ->; discriminate).
  rewrite calculate_stats_clean in Hc by exact Hne.
  injection Hc as <-. cbn [sum30d avg count].
  assert (Hf : List.filter (in_window now 720) (sort_desc tr) = sort_desc tr).
  { apply List.forallb_filter_id. apply forallb_forall. intros x Hx.
    unfold in_window. apply Qle_bool_iff.
    apply (proj1 (List.Forall_forall _ _) Hin). apply (Permutation_in _ (sort_desc_perm tr)). exact Hx. }
  unfold window_rates. rewrite Hf.
  unfold py_sum. cbn [py_add py_zero py_div py_of_nat Q_PyNum].
  rewrite (fold_Qplus_perm _ _ (Permutation_map snd (sort_desc_perm tr))).
  assert (Hn : ~ inject_Z (Z.of_nat (length tr)) == 0).
  { change 0%Q with (inject_Z 0). rewrite inject_Z_injective.
    destruct tr; [congruence|]. simpl length. lia. }
  field. exact Hn.
Qed.

Lemma calculate_stats_sum30d_total_witness :
  Forall (fun p => cutoff_of 1000 720 <= inject_Z (fst p))%Q [(0%Z, 1 # 10); (1%Z, 2 # 10)] /\
  exists s, calculate_stats (map obs_of [(0%Z, 1 # 10); (1%Z, 2 # 10)]) 1000 = Returns (Some s) /\
  (sum30d s == avg s * inject_Z (Z.of_nat (count s)))%Q.
Proof.
  assert (Hp : Forall (fun p => cutoff_of 1000 720 <= inject_Z (fst p))%Q
                 [(0%Z, 1 # 10); (1%Z, 2 # 10)]).
  { repeat constructor; apply Qle_bool_iff; reflexivity. }
  split; [exact Hp|].
  eexists. split; [vm_compute; reflexivity|].
  apply (calculate_stats_sum30d_total _ 1000 _ Hp).
  vm_compute. reflexivity.
Defined.

(* ------------------------------------------------------------------ *)
(** ** More properties of [fetch_funding_history] *)

(** Every request of a download, retries included, asks for [coin];
    those of the first page start at [start_time]; the end time is sent
    only when it is given and non-zero ([if end_time:]). *)
Theorem fetch_funding_history_payloads {R} (server : nat -> payload -> response R)
    (coin : string) (start_time : Z) (end_time : option Z) (w : world) :
  let '(_, w') := fetch_funding_history server coin start_time end_time w in
  exists new, trace w' = trace w ++ new /\
  forall i q, In (Post i q) new ->
    p_coin q = coin /\
    (i = 0%nat -> p_startTime q = start_time) /\
    (end_time = None \/ end_time = Some 0%Z -> p_endTime q = None) /\
    (forall e, end_time = Some e -> e <> 0%Z -> p_endTime q = Some e).
Proof.
  unfold fetch_funding_history.
  pose proof (page_loop_posts server coin end_time max_iterations 0 start_time [] w) as Hp.
  destruct (page_loop server coin end_time 0 max_iterations start_time [] w) as [res w'].
  destruct Hp as (new & Ht & Hp). exists new. split; [exact Ht|].
  intros i q Hin. destruct (Hp i q Hin) as (_ & [c ->] & H0).
  split; [reflexivity|]. split.
  - intros ->. rewrite (H0 eq_refl). reflexivity.
  - split.
    + intros [-> | ->]; reflexivity.
    + intros e -> He. simpl. rewrite (proj2 (Z.eqb_neq e 0) He). reflexivity.
Qed.

(** When every answer is a full page, the download sends exactly one
    request per page, pages 0 to 19 in order; the first starts at
    [start_time] and each later one at one past the latest time of the
    page before it. *)
Theorem fetch_funding_history_cursor {R} (pg : nat -> list (observation R))
    (coin : string) (start_time : Z) (end_time : option Z) (w : world) :
  (forall i, (500 <= length (pg i))%nat /\ Forall (fun d => is_Some (time d)) (pg i)) ->
  let '(_, w') := fetch_funding_history (fun i _ => HttpResponse 200 (BodyList (pg i)))
                    coin start_time end_time w in
  exists new, trace w' = trace w ++ new /\ length new = max_iterations /\
  forall k, (k < max_iterations)%nat -> exists q, nth_error new k = Some (Post k q) /\
    (k = 0%nat -> p_startTime q = start_time) /\
    (forall j, k = S j -> max_time (pg (ncalls w + j)%nat) = Returns (p_startTime q - 1)%Z).
Proof.
  intros Hpg. unfold fetch_funding_history.
  pose proof (page_loop_full_trace (fun i _ => HttpResponse 200 (BodyList (pg i))) coin end_time pg
                (fun i q => eq_refl) Hpg max_iterations 0 start_time [] w) as Hp.
  destruct (page_loop _ coin end_time 0 max_iterations start_time [] w) as [res w'].
  destruct Hp as (new & Ht & Hl & Hk). exists new.
  split; [exact Ht|]. split; [exact Hl|].
  intros k Hk'. destruct (Hk k Hk') as (q & Hn & _ & H0 & HS).
  exists q. split; [exact Hn|]. split; [exact H0|exact HS].
Qed.

Lemma fetch_funding_history_cursor_witness :
  (forall i, (500 <= length (full_page_at i))%nat /\
             Forall (fun d => is_Some (time d)) (full_page_at i)) /\
  let '(_, w') := fetch_funding_history (fun i _ => HttpResponse 200 (BodyList (full_page_at i)))
                    "BTC" 0 (Some 1000000%Z) world0 in
  exists new, trace w' = trace world0 ++ new /\ length new = max_iterations /\
  forall k, (k < max_iterations)%nat -> exists q, nth_error new k = Some (Post k q) /\
    (k = 0%nat -> p_startTime q = 0%Z) /\
    (forall j, k = S j -> max_time (full_page_at (ncalls world0 + j)%nat) =
                          Returns (p_startTime q - 1)%Z).
Proof.
  assert (Hpg : forall i, (500 <= length (full_page_at i))%nat /\
             Forall (fun d => is_Some (time d)) (full_page_at i)).
  { intros i. unfold full_page_at, full_page. rewrite length_map, length_seq.
    split; [lia|]. apply List.Forall_forall. intros d Hd.
    apply in_map_iff in Hd as (k & <- & _). eexists. reflexivity. }
  split; [exact Hpg|].
  pose proof (fetch_funding_history_cursor full_page_at "BTC" 0 (Some 1000000%Z) world0 Hpg) as H.
  exact H.
Defined.


(** A full page (500 records or more) one of whose records has no
    [time], answered on every attempt: [all_data.extend(data)] runs
    before [max(...)] raises, so the page is appended once per attempt;
    after three attempts, one second apart, the download returns the
    page three times over. *)
Theorem fetch_funding_history_bad_page {R} (server : nat -> payload -> response R)
    (coin : string) (start_time : Z) (end_time : option Z) (w : world)
    (pg : list (observation R)) :
  (500 <= length pg)%nat -> Exists (fun d => time d = None) pg ->
  (forall k q, (k < max_retries)%nat ->
     server (ncalls w + k)%nat q = HttpResponse 200 (BodyList pg)) ->
  fetch_funding_history server coin start_time end_time w =
    (pg ++ pg ++ pg,
     mkWorld (trace w ++ [Post 0 (make_payload coin start_time end_time); Sleep 1;
                          Post 0 (make_payload coin start_time end_time); Sleep 1;
                          Post 0 (make_payload coin start_time end_time)])
             (ncalls w + 3) (nclock w)).
Proof.
  intros Hlen Hx Hsrv. unfold fetch_funding_history, max_iterations.
  cbn [page_loop]. unfold max_retries at 1. cbn [retry_loop]. unfold post, sleep.
  cbn [ncalls trace nclock].
  assert (S0 : forall q, server (ncalls w) q = HttpResponse 200 (BodyList pg)).
  { intros q. rewrite <- (Nat.add_0_r (ncalls w)). apply Hsrv. unfold max_retries. lia. }
  assert (S1 : forall q, server (S (ncalls w)) q = HttpResponse 200 (BodyList pg)).
  { intros q. replace (S (ncalls w)) with (ncalls w + 1)%nat by lia.
    apply Hsrv. unfold max_retries. lia. }
  assert (S2 : forall q, server (S (S (ncalls w))) q = HttpResponse 200 (BodyList pg)).
  { intros q. replace (S (S (ncalls w))) with (ncalls w + 2)%nat by lia.
    apply Hsrv. unfold max_retries. lia. }
  rewrite S0, (attempt_bad_full [] pg Hlen Hx). cbn [Nat.eqb Nat.sub max_retries].
  rewrite S1, (attempt_bad_full _ pg Hlen Hx). cbn [Nat.eqb Nat.sub max_retries].
  rewrite S2, (attempt_bad_full _ pg Hlen Hx). cbn [Nat.eqb Nat.sub max_retries].
  rewrite <- !app_assoc. cbn [app].
  f_equal. f_equal. lia.
Qed.

(** A full page whose first record has no [time]. *)
Definition bad_page : list (observation Q) :=
  mkObs None (Some 0%Q) :: skipn 1 (full_page 0).

Lemma fetch_funding_history_bad_page_witness :
  (500 <= length bad_page)%nat /\ Exists (fun d => time d = None) bad_page /\
  fetch_funding_history (fun _ _ => HttpResponse 200 (BodyList bad_page)) "BTC" 0 None world0 =
    (bad_page ++ bad_page ++ bad_page,
     mkWorld (trace world0 ++ [Post 0 (make_payload "BTC" 0 None); Sleep 1;
                               Post 0 (make_payload "BTC" 0 None); Sleep 1;
                               Post 0 (make_payload "BTC" 0 None)])
             (ncalls world0 + 3) (nclock world0)).
Proof.
  assert (Hl : (500 <= length bad_page)%nat) by (apply Nat.leb_le; vm_compute; reflexivity).
  assert (Hx : Exists (fun d => time d = None) bad_page) by (constructor; reflexivity).
  split; [exact Hl|]. split; [exact Hx|].
  pose proof (fetch_funding_history_bad_page (fun _ _ => HttpResponse 200 (BodyList bad_page))
                "BTC" 0 None world0 bad_page Hl Hx (fun k q _ => eq_refl)) as H.
  exact H.
Defined.


(** A page answered (status 200) with a body that is not a list or
    that has fewer than 500 records ends the download after that one
    request: the result is the records of the page as received, none
    for a non-list, without looking at their fields. *)
Theorem fetch_funding_history_last_page {R} (server : nat -> payload -> response R)
    (coin : string) (start_time : Z) (end_time : option Z) (w : world) (b : body R) :
  server (ncalls w) (make_payload coin start_time end_time) = HttpResponse 200 b ->
  (b = BodyNotList \/ exists data, b = BodyList data /\ (length data < 500)%nat) ->
  fetch_funding_history server coin start_time end_time w =
    (match b with BodyList data => data | _ => [] end,
     mkWorld (trace w ++ [Post 0 (make_payload coin start_time end_time)])
             (S (ncalls w)) (nclock w)).
Proof.
  intros Hsrv Hb. unfold fetch_funding_history, max_iterations.
  cbn [page_loop]. unfold max_retries at 1. cbn [retry_loop]. unfold post. rewrite Hsrv.
  destruct Hb as [->|(data & -> & Hl)]; [reflexivity|].
  unfold attempt. cbn -[max_time].
  destruct data as [|d ds]; [reflexivity|].
  rewrite (proj2 (Nat.leb_le (length (d :: ds)) 499) ltac:(lia)). reflexivity.
Qed.

Lemma fetch_funding_history_last_page_witness :
  (fun (_ : nat) (_ : payload) => HttpResponse 200 (BodyList three_obs)) (ncalls world0)
    (make_payload "BTC" 0 (Some 0%Z)) = HttpResponse 200 (BodyList three_obs) /\
  (exists data, BodyList three_obs = BodyList data /\ (length data < 500)%nat) /\
  fetch_funding_history (fun _ _ => HttpResponse 200 (BodyList three_obs)) "BTC" 0 (Some 0%Z) world0 =
    (three_obs,
     mkWorld (trace world0 ++ [Post 0 (make_payload "BTC" 0 (Some 0%Z))])
             (S (ncalls world0)) (nclock world0)).
Proof.
  assert (Hb : exists data, BodyList three_obs = BodyList data /\ (length data < 500)%nat).
  { exists three_obs. split; [reflexivity|simpl; lia]. }
  split; [reflexivity|]. split; [exact Hb|].
  exact (fetch_funding_history_last_page (fun _ _ => HttpResponse 200 (BodyList three_obs))
           "BTC" 0 (Some 0%Z) world0 (BodyList three_obs) eq_refl (or_intror Hb)).
Defined.


(* ------------------------------------------------------------------ *)
(** ** A page that fails three times *)

(** A page whose three attempts all fail softly (a raised exception or
    a 429, in any mix): the same request is sent three times, with the
    pauses of [failure_wait] after each, and the download returns what
    it had, without asking for another page. *)
Theorem page_loop_failure_waits {R} (server : nat -> payload -> response R)
    (coin : string) (end_time : option Z) (it left : nat) (cur : Z)
    (acc : list (observation R)) (w : world) (r0 r1 r2 : response R) :
  soft_fail r0 -> soft_fail r1 -> soft_fail r2 ->
  (forall q, server (ncalls w) q = r0) ->
  (forall q, server (S (ncalls w)) q = r1) ->
  (forall q, server (S (S (ncalls w))) q = r2) ->
  page_loop server coin end_time it (S left) cur acc w =
    (acc, mkWorld (trace w ++ [Post it (make_payload coin cur end_time)] ++ failure_wait 0 r0 ++
                   [Post it (make_payload coin cur end_time)] ++ failure_wait 1 r1 ++
                   [Post it (make_payload coin cur end_time)] ++ failure_wait 2 r2)
                  (ncalls w + 3) (nclock w)).
Proof.
  intros H0 H1 H2 S0 S1 S2.
  cbn [page_loop]. unfold max_retries at 1. cbn [retry_loop]. unfold post, sleep.
  cbn [ncalls trace nclock]. rewrite S0, S1, S2.
  destruct H0 as [->|[b0 ->]], H1 as [->|[b1 ->]], H2 as [->|[b2 ->]];
    cbn [attempt failure_wait Z.eqb Pos.eqb negb Nat.eqb Nat.sub max_retries];
    rewrite <- ?app_assoc; cbn [app]; f_equal; f_equal; lia.
Qed.

Lemma page_loop_failure_waits_witness :
  soft_fail (@TransportError Q) /\ soft_fail (@HttpResponse Q 429 BodyNotList) /\
  soft_fail (@TransportError Q) /\
  page_loop (@scripted Q [TransportError; HttpResponse 429 BodyNotList; TransportError])
    "BTC" None 0 19 0 [] world0 =
    ([], mkWorld (trace world0 ++ [Post 0 (make_payload "BTC" 0 None)] ++ failure_wait 0 (@TransportError Q) ++
                  [Post 0 (make_payload "BTC" 0 None)] ++ failure_wait 1 (@HttpResponse Q 429 BodyNotList) ++
                  [Post 0 (make_payload "BTC" 0 None)] ++ failure_wait 2 (@TransportError Q))
                 (ncalls world0 + 3) (nclock world0)).
Proof.
  assert (F0 : soft_fail (@TransportError Q)) by (left; reflexivity).
  assert (F1 : soft_fail (@HttpResponse Q 429 BodyNotList)) by (right; eexists; reflexivity).
  split; [exact F0|]. split; [exact F1|]. split; [exact F0|].
  exact (page_loop_failure_waits (@scripted Q [TransportError; HttpResponse 429 BodyNotList; TransportError])
           "BTC" None 0 19 0 [] world0 _ _ _ F0 F1 F0
           (fun q => eq_refl) (fun q => eq_refl) (fun q => eq_refl)).
Defined.

(* ------------------------------------------------------------------ *)
(** ** Properties of the report *)

(** The chart of a coin with a well-formed history: at most 500
    points, in ascending time order, taken from the end of the sorted
    history (no dropped observation is later than a kept one), each
    point being an observation's time and its rate times 100. *)
Theorem chart_points_latest {R} `{PyNum R} `{PyScale R} (tr : list (Z * R)) :
  exists sorted, chart_points (map obs_of tr) =
    Returns (map (fun p => (fst p, py_mul (snd p) py_hundred)) (last500 sorted)) /\
  Permutation sorted tr /\ Sorted time_le sorted /\
  length (last500 sorted) = Nat.min 500 (length tr) /\
  (forall x y, In x (firstn (length tr - 500) sorted) -> In y (last500 sorted) ->
               (fst x <= fst y)%Z).
Proof.
  exists (sort_asc tr). split; [apply chart_points_clean|].
  split; [apply sort_asc_perm|]. split; [apply sort_asc_sorted|].
  pose proof (Permutation_length (sort_asc_perm tr)) as Hl.
  split; [rewrite length_last500, Hl; reflexivity|].
  intros x y Hx Hy.
  pose proof (@Sorted_StronglySorted _ time_le time_le_trans _ (sort_asc_sorted tr)) as Hs.
  rewrite <- (firstn_skipn (length tr - 500) (sort_asc tr)) in Hs.
  destruct (StronglySorted_app_inv _ _ _ Hs) as (_ & _ & H12).
  apply (H12 x y Hx). unfold last500 in Hy. rewrite Hl in Hy. exact Hy.
Qed.

(** On the data [main] collects, the chart preparation of
    [generate_html] never raises, and it charts exactly the coins whose
    history is non-empty.  (The result does not depend on the order in
    which the items are visited: the keys of a dict are distinct.) *)
Theorem run_chart_data {R} `{PyNum R} `{PyScale R} (server : nat -> payload -> response R)
    (clock : nat -> Q) (thirty_days_earlier : Q -> Q) (include_main_perp : bool) (main_resp hip3_resp : cat_response R)
    (w : world) :
  let '(m, _) := run server clock thirty_days_earlier include_main_perp main_resp hip3_resp w in
  exists cd, chart_data (map_to_list m) ∅ = Returns cd /\
    forall c, is_Some (cd !! c) <-> exists r, m !! c = Some r /\ rec_history r <> [].
Proof.
  unfold run.
  destruct (get_all_perp_assets include_main_perp main_resp hip3_resp)
    as [[main_assets hip3_assets] market_data].
  destruct (read_clock clock w) as [now1 w1].
  destruct (read_clock clock w1) as [now2 w2].
  pose proof (main_loop_records server clock market_data
                (py_int (thirty_days_earlier now2)) (py_int now1)
                (main_assets ++ hip3_assets) ∅ w2) as Hc.
  destruct (main_loop server clock market_data
              (py_int (thirty_days_earlier now2)) (py_int now1)
              (main_assets ++ hip3_assets) ∅ w2) as [m w'].
  destruct Hc as (Hwf & _ & _).
  { intros c r Hc. rewrite lookup_empty in Hc. discriminate. }
  destruct (chart_data_ok (map_to_list m)) with (acc := (∅ : gmap string (list (Z * R)))) as (cd & Hcd & Hdom).
  { apply List.Forall_forall. intros [c r] Hin. apply (Hwf c r).
    apply elem_of_map_to_list. apply list_elem_of_In. exact Hin. }
  exists cd. split; [exact Hcd|]. intros c. rewrite Hdom, lookup_empty. split.
  - intros [[? Hc]|(r & Hin & Hne)]; [discriminate|].
    exists r. split; [|exact Hne]. apply elem_of_map_to_list. apply list_elem_of_In. exact Hin.
  - intros (r & Hr & Hne). right. exists r. split; [|exact Hne].
    apply list_elem_of_In. apply elem_of_map_to_list. exact Hr.
Qed.

(** In exact arithmetic, the summary printed at the end of [main] lists
    at most 10 items, all with stats, in non-increasing order of
    [abs(sum7d)]; every item with stats left out has an [abs(sum7d)] no
    larger than that of any listed one. *)
Theorem top10_ranked (items : list (string * symbol_record Q)) :
  exists rest, Permutation (top10 items ++ rest) (List.filter has_stats items) /\
  Sorted key_ge (top10 items) /\
  length (top10 items) = Nat.min 10 (length (List.filter has_stats items)) /\
  (forall x y, In x rest -> In y (top10 items) -> (top_key x <= top_key y)%Q).
Proof.
  set (S := sort_top (List.filter has_stats items)).
  exists (skipn 10 S). unfold top10. fold S.
  pose proof (sort_top_perm (List.filter has_stats items)) as Hp. fold S in Hp.
  pose proof (@Sorted_StronglySorted _ key_ge key_ge_trans _ (sort_top_sorted (List.filter has_stats items))) as Hs.
  fold S in Hs. rewrite <- (firstn_skipn 10 S) in Hs.
  destruct (StronglySorted_app_inv _ _ _ Hs) as (H1 & _ & H12).
  split; [rewrite firstn_skipn; exact Hp|].
  split; [apply StronglySorted_Sorted; exact H1|].
  split; [rewrite length_firstn, (Permutation_length Hp); reflexivity|].
  intros x y Hx Hy. exact (H12 y x Hy Hx).
Qed.

(* ------------------------------------------------------------------ *)
(** ** More properties of the catalog *)

(** A namespace answered with [n] names and [k] contexts that all
    convert: its symbol list is the first [min n k] names, in order
    ([zip] drops the rest), exactly these have a snapshot, and when the
    names are distinct each gets the snapshot of its own context. *)
Theorem fetch_namespace_zip {R} (names : list string) (ctxs : list (asset_ctx R)) :
  Forall (fun ctx => exists s, snapshot_of ctx = Returns s) ctxs ->
  let '(assets, market) := fetch_namespace (CatResponse 200 (MetaPair (Some (map Some names)) ctxs)) in
  assets = firstn (length ctxs) names /\
  (forall c, is_Some (market !! c) <-> In c assets) /\
  (NoDup names -> forall i c ctx s, names !! i = Some c -> ctxs !! i = Some ctx ->
     snapshot_of ctx = Returns s -> market !! c = Some s).
Proof.
  intros Hok. cbn [fetch_namespace Z.eqb].
  pose proof (universe_loop_zip names ctxs Hok [] ∅) as Hz.
  destruct (universe_loop (combine (map Some names) ctxs) [] ∅) as [assets market].
  destruct Hz as (Ha & _ & Hdom & Hlook). simpl in Ha. subst assets.
  split; [reflexivity|]. split; [|exact Hlook].
  intros c. rewrite Hdom, lookup_empty. split; [intros [[? E]|Hc]; [discriminate|exact Hc]|].
  intros Hc. right. exact Hc.
Qed.

Lemma fetch_namespace_zip_witness :
  Forall (fun ctx => exists s, snapshot_of ctx = Returns s) [ok_ctx; ok_ctx] /\
  let '(assets, market) := fetch_namespace (CatResponse 200
         (MetaPair (Some (map Some ["xyz:A"; "xyz:B"; "xyz:C"])) [ok_ctx; ok_ctx])) in
  assets = firstn (length [ok_ctx; ok_ctx]) ["xyz:A"; "xyz:B"; "xyz:C"] /\
  (forall c, is_Some (market !! c) <-> In c assets) /\
  (NoDup ["xyz:A"; "xyz:B"; "xyz:C"] -> forall i c ctx s, ["xyz:A"; "xyz:B"; "xyz:C"] !! i = Some c ->
     [ok_ctx; ok_ctx] !! i = Some ctx -> snapshot_of ctx = Returns s -> market !! c = Some s).
Proof.
  assert (Hok : Forall (fun ctx => exists s, snapshot_of ctx = Returns s) [ok_ctx; ok_ctx]).
  { repeat constructor; eexists; reflexivity. }
  split; [exact Hok|].
  exact (fetch_namespace_zip ["xyz:A"; "xyz:B"; "xyz:C"] [ok_ctx; ok_ctx] Hok).
Defined.


(* ------------------------------------------------------------------ *)
(** ** More properties of the loop of [main] *)

(** Every symbol of the catalog list gets, in its record, the market
    snapshot of the merged catalog mapping, or all zeros when the
    mapping has none for it. *)
Theorem run_market {R} `{PyNum R} (server : nat -> payload -> response R)
    (clock : nat -> Q) (thirty_days_earlier : Q -> Q) (include_main_perp : bool) (main_resp hip3_resp : cat_response R)
    (w : world) :
  let '(main_assets, hip3_assets, market_data) :=
    get_all_perp_assets include_main_perp main_resp hip3_resp in
  let '(m, _) := run server clock thirty_days_earlier include_main_perp main_resp hip3_resp w in
  forall c, In c (main_assets ++ hip3_assets) ->
    exists r, m !! c = Some r /\
      rec_market r = match market_data !! c with Some s => s | None => zero_snapshot end.
Proof.
  unfold run.
  destruct (get_all_perp_assets include_main_perp main_resp hip3_resp)
    as [[main_assets hip3_assets] market_data].
  destruct (read_clock clock w) as [now1 w1].
  destruct (read_clock clock w1) as [now2 w2].
  pose proof (main_loop_records server clock market_data
                (py_int (thirty_days_earlier now2)) (py_int now1)
                (main_assets ++ hip3_assets) ∅ w2) as Hc.
  destruct (main_loop server clock market_data
              (py_int (thirty_days_earlier now2)) (py_int now1)
              (main_assets ++ hip3_assets) ∅ w2) as [m w'].
  destruct Hc as (_ & Hmk & _).
  { intros c r Hc. rewrite lookup_empty in Hc. discriminate. }
  intros c Hin. exact (Hmk c (or_introl Hin)).
Qed.

(** Every request [main] sends asks for a symbol of the catalog list;
    the first page of each download starts at the int of thirty local
    days before the second clock reading, and every request ends at the
    first reading (truncated to an int; not sent when it is 0). *)
Theorem run_requests {R} `{PyNum R} (server : nat -> payload -> response R)
    (clock : nat -> Q) (thirty_days_earlier : Q -> Q) (include_main_perp : bool) (main_resp hip3_resp : cat_response R)
    (w : world) :
  let '(main_assets, hip3_assets, _) :=
    get_all_perp_assets include_main_perp main_resp hip3_resp in
  let '(_, w') := run server clock thirty_days_earlier include_main_perp main_resp hip3_resp w in
  exists new, trace w' = trace w ++ new /\
  forall i q, In (Post i q) new ->
    In (p_coin q) (main_assets ++ hip3_assets) /\
    (i = 0%nat -> p_startTime q =
       py_int (thirty_days_earlier (clock (S (nclock w))))) /\
    p_endTime q = (if (py_int (clock (nclock w)) =? 0)%Z then None
                   else Some (py_int (clock (nclock w)))).
Proof.
  unfold run.
  destruct (get_all_perp_assets include_main_perp main_resp hip3_resp)
    as [[main_assets hip3_assets] market_data].
  unfold read_clock. cbn [nclock ncalls trace].
  match goal with
  | |- context [main_loop server clock market_data ?st ?et ?a ∅ ?w2] =>
    pose proof (main_loop_records server clock market_data st et a ∅ w2) as Hc;
    destruct (main_loop server clock market_data st et a ∅ w2) as [m w']
  end.
  destruct Hc as (_ & _ & Hreq).
  { intros c r Hc. rewrite lookup_empty in Hc. discriminate. }
  exact Hreq.
Qed.
